(** * homekit-ratgdo-exporter: the scrape cycle of [main.go]

    A shallow embedding of [fetchData], [boolToFloat] and [metricsHandler]
    together with the part of the Prometheus client they drive: labelled
    gauge and counter vectors, the response writer of the HTTP layer and
    the process-wide mutex. *)

From Stdlib Require Import ZArith Lia.
From Stdlib Require SpecFloat.
From stdpp Require Import base option list strings gmap.

Local Open Scope string_scope.
Local Open Scope list_scope.
Local Open Scope stdpp_scope.
Local Open Scope Z_scope.

(** ** Values *)

(** Go's [float64]: IEEE 754 binary64, as the standard library specifies it
    (53 bits of mantissa, exponent bound 1024). *)
Definition float64 : Type := SpecFloat.spec_float.

(** The conversion [float64(n)] of an integer: round to nearest, ties to
    even. *)
Definition float64_of_int (n : Z) : float64 :=
  SpecFloat.binary_normalize 53 1024 n 0 false.

(** The untyped constants [0] and [1] passed to [Set]. *)
Definition f0 : float64 := Eval vm_compute in float64_of_int 0.
Definition f1 : float64 := Eval vm_compute in float64_of_int 1.

(** The number a finite float stands for, when it is an integer. *)
Definition float64_to_int (x : float64) : option Z :=
  match x with
  | SpecFloat.S754_zero _ => Some 0
  | SpecFloat.S754_finite s m (Z0 as e) | SpecFloat.S754_finite s m (Zpos _ as e) =>
      Some ((if s then -1 else 1) * (Zpos m * 2 ^ e))
  | SpecFloat.S754_finite s m (Zneg k) =>
      if (Zpos m mod 2 ^ Zpos k =? 0) then
        Some ((if s then -1 else 1) * (Zpos m / 2 ^ Zpos k))
      else None
  | _ => None
  end.

(** Go's [error] interface: only the message is kept. *)
Definition error : Type := string.

(** ** [type Status struct] *)

Record Status : Type := {
  UpTime : Z;
  DeviceName : string;
  Paired : bool;
  FirmwareVersion : string;
  AccessoryID : string;
  LocalIP : string;
  SubnetMask : string;
  GatewayIP : string;
  MacAddress : string;
  WifiSSID : string;
  GDOSecurityType : string;
  GarageDoorState : string;
  GarageLockState : string;
  GarageLightOn : bool;
  GarageMotion : bool;
  GarageObstructed : bool;
  PasswordRequired : bool;
  RebootSeconds : Z;
  FreeHeap : Z;
  MinHeap : Z;
  MinStack : Z;
  CrashCount : Z;
  WifiPhyMode : Z;
  WifiPower : Z;
  TTCseconds : Z;
  MotionTriggers : Z;
  LEDidle : Z;
  LastDoorUpdateAt : Z;
  CheckFlashCRC : bool
}.

(** [var status Status]: every field at its zero value. *)
Definition Status_zero : Status :=
  {| UpTime := 0; DeviceName := ""; Paired := false; FirmwareVersion := "";
     AccessoryID := ""; LocalIP := ""; SubnetMask := ""; GatewayIP := "";
     MacAddress := ""; WifiSSID := ""; GDOSecurityType := "";
     GarageDoorState := ""; GarageLockState := ""; GarageLightOn := false;
     GarageMotion := false; GarageObstructed := false;
     PasswordRequired := false; RebootSeconds := 0; FreeHeap := 0;
     MinHeap := 0; MinStack := 0; CrashCount := 0; WifiPhyMode := 0;
     WifiPower := 0; TTCseconds := 0; MotionTriggers := 0; LEDidle := 0;
     LastDoorUpdateAt := 0; CheckFlashCRC := false |}.

Definition boolToFloat (b : bool) : float64 :=
  if b then f1 else f0.


(** ** The Prometheus client

    A metric vector ([*prometheus.GaugeVec], [*prometheus.CounterVec]) owns
    one child per tuple of label values.  The children of the thirteen
    vectors of [main.go] are the mutable state of the process.  A gauge
    child holds the [float64] last set; a counter child, which the code
    only ever increments by one, holds the number of its increments. *)

Record Registry : Type := {
  upTime_children : gmap (list string) float64;
  paired_children : gmap (list string) float64;
  garageLightOn_children : gmap (list string) float64;
  garageMotion_children : gmap (list string) float64;
  garageObstructed_children : gmap (list string) float64;
  passwordRequired_children : gmap (list string) float64;
  freeHeap_children : gmap (list string) float64;
  minHeap_children : gmap (list string) float64;
  minStack_children : gmap (list string) float64;
  crashCount_children : gmap (list string) float64;
  garageDoorState_children : gmap (list string) float64;
  deviceInfo_children : gmap (list string) float64;
  requestCount_children : gmap (list string) N
}.

Definition set_upTime_children (c : gmap (list string) float64) (r : Registry) : Registry :=
  {| upTime_children := c;
     paired_children := paired_children r;
     garageLightOn_children := garageLightOn_children r;
     garageMotion_children := garageMotion_children r;
     garageObstructed_children := garageObstructed_children r;
     passwordRequired_children := passwordRequired_children r;
     freeHeap_children := freeHeap_children r;
     minHeap_children := minHeap_children r;
     minStack_children := minStack_children r;
     crashCount_children := crashCount_children r;
     garageDoorState_children := garageDoorState_children r;
     deviceInfo_children := deviceInfo_children r;
     requestCount_children := requestCount_children r |}.

Definition set_paired_children (c : gmap (list string) float64) (r : Registry) : Registry :=
  {| upTime_children := upTime_children r;
     paired_children := c;
     garageLightOn_children := garageLightOn_children r;
     garageMotion_children := garageMotion_children r;
     garageObstructed_children := garageObstructed_children r;
     passwordRequired_children := passwordRequired_children r;
     freeHeap_children := freeHeap_children r;
     minHeap_children := minHeap_children r;
     minStack_children := minStack_children r;
     crashCount_children := crashCount_children r;
     garageDoorState_children := garageDoorState_children r;
     deviceInfo_children := deviceInfo_children r;
     requestCount_children := requestCount_children r |}.

Definition set_garageLightOn_children (c : gmap (list string) float64) (r : Registry) : Registry :=
  {| upTime_children := upTime_children r;
     paired_children := paired_children r;
     garageLightOn_children := c;
     garageMotion_children := garageMotion_children r;
     garageObstructed_children := garageObstructed_children r;
     passwordRequired_children := passwordRequired_children r;
     freeHeap_children := freeHeap_children r;
     minHeap_children := minHeap_children r;
     minStack_children := minStack_children r;
     crashCount_children := crashCount_children r;
     garageDoorState_children := garageDoorState_children r;
     deviceInfo_children := deviceInfo_children r;
     requestCount_children := requestCount_children r |}.

Definition set_garageMotion_children (c : gmap (list string) float64) (r : Registry) : Registry :=
  {| upTime_children := upTime_children r;
     paired_children := paired_children r;
     garageLightOn_children := garageLightOn_children r;
     garageMotion_children := c;
     garageObstructed_children := garageObstructed_children r;
     passwordRequired_children := passwordRequired_children r;
     freeHeap_children := freeHeap_children r;
     minHeap_children := minHeap_children r;
     minStack_children := minStack_children r;
     crashCount_children := crashCount_children r;
     garageDoorState_children := garageDoorState_children r;
     deviceInfo_children := deviceInfo_children r;
     requestCount_children := requestCount_children r |}.

Definition set_garageObstructed_children (c : gmap (list string) float64) (r : Registry) : Registry :=
  {| upTime_children := upTime_children r;
     paired_children := paired_children r;
     garageLightOn_children := garageLightOn_children r;
     garageMotion_children := garageMotion_children r;
     garageObstructed_children := c;
     passwordRequired_children := passwordRequired_children r;
     freeHeap_children := freeHeap_children r;
     minHeap_children := minHeap_children r;
     minStack_children := minStack_children r;
     crashCount_children := crashCount_children r;
     garageDoorState_children := garageDoorState_children r;
     deviceInfo_children := deviceInfo_children r;
     requestCount_children := requestCount_children r |}.

Definition set_passwordRequired_children (c : gmap (list string) float64) (r : Registry) : Registry :=
  {| upTime_children := upTime_children r;
     paired_children := paired_children r;
     garageLightOn_children := garageLightOn_children r;
     garageMotion_children := garageMotion_children r;
     garageObstructed_children := garageObstructed_children r;
     passwordRequired_children := c;
     freeHeap_children := freeHeap_children r;
     minHeap_children := minHeap_children r;
     minStack_children := minStack_children r;
     crashCount_children := crashCount_children r;
     garageDoorState_children := garageDoorState_children r;
     deviceInfo_children := deviceInfo_children r;
     requestCount_children := requestCount_children r |}.

Definition set_freeHeap_children (c : gmap (list string) float64) (r : Registry) : Registry :=
  {| upTime_children := upTime_children r;
     paired_children := paired_children r;
     garageLightOn_children := garageLightOn_children r;
     garageMotion_children := garageMotion_children r;
     garageObstructed_children := garageObstructed_children r;
     passwordRequired_children := passwordRequired_children r;
     freeHeap_children := c;
     minHeap_children := minHeap_children r;
     minStack_children := minStack_children r;
     crashCount_children := crashCount_children r;
     garageDoorState_children := garageDoorState_children r;
     deviceInfo_children := deviceInfo_children r;
     requestCount_children := requestCount_children r |}.

Definition set_minHeap_children (c : gmap (list string) float64) (r : Registry) : Registry :=
  {| upTime_children := upTime_children r;
     paired_children := paired_children r;
     garageLightOn_children := garageLightOn_children r;
     garageMotion_children := garageMotion_children r;
     garageObstructed_children := garageObstructed_children r;
     passwordRequired_children := passwordRequired_children r;
     freeHeap_children := freeHeap_children r;
     minHeap_children := c;
     minStack_children := minStack_children r;
     crashCount_children := crashCount_children r;
     garageDoorState_children := garageDoorState_children r;
     deviceInfo_children := deviceInfo_children r;
     requestCount_children := requestCount_children r |}.

Definition set_minStack_children (c : gmap (list string) float64) (r : Registry) : Registry :=
  {| upTime_children := upTime_children r;
     paired_children := paired_children r;
     garageLightOn_children := garageLightOn_children r;
     garageMotion_children := garageMotion_children r;
     garageObstructed_children := garageObstructed_children r;
     passwordRequired_children := passwordRequired_children r;
     freeHeap_children := freeHeap_children r;
     minHeap_children := minHeap_children r;
     minStack_children := c;
     crashCount_children := crashCount_children r;
     garageDoorState_children := garageDoorState_children r;
     deviceInfo_children := deviceInfo_children r;
     requestCount_children := requestCount_children r |}.

Definition set_crashCount_children (c : gmap (list string) float64) (r : Registry) : Registry :=
  {| upTime_children := upTime_children r;
     paired_children := paired_children r;
     garageLightOn_children := garageLightOn_children r;
     garageMotion_children := garageMotion_children r;
     garageObstructed_children := garageObstructed_children r;
     passwordRequired_children := passwordRequired_children r;
     freeHeap_children := freeHeap_children r;
     minHeap_children := minHeap_children r;
     minStack_children := minStack_children r;
     crashCount_children := c;
     garageDoorState_children := garageDoorState_children r;
     deviceInfo_children := deviceInfo_children r;
     requestCount_children := requestCount_children r |}.

Definition set_garageDoorState_children (c : gmap (list string) float64) (r : Registry) : Registry :=
  {| upTime_children := upTime_children r;
     paired_children := paired_children r;
     garageLightOn_children := garageLightOn_children r;
     garageMotion_children := garageMotion_children r;
     garageObstructed_children := garageObstructed_children r;
     passwordRequired_children := passwordRequired_children r;
     freeHeap_children := freeHeap_children r;
     minHeap_children := minHeap_children r;
     minStack_children := minStack_children r;
     crashCount_children := crashCount_children r;
     garageDoorState_children := c;
     deviceInfo_children := deviceInfo_children r;
     requestCount_children := requestCount_children r |}.

Definition set_deviceInfo_children (c : gmap (list string) float64) (r : Registry) : Registry :=
  {| upTime_children := upTime_children r;
     paired_children := paired_children r;
     garageLightOn_children := garageLightOn_children r;
     garageMotion_children := garageMotion_children r;
     garageObstructed_children := garageObstructed_children r;
     passwordRequired_children := passwordRequired_children r;
     freeHeap_children := freeHeap_children r;
     minHeap_children := minHeap_children r;
     minStack_children := minStack_children r;
     crashCount_children := crashCount_children r;
     garageDoorState_children := garageDoorState_children r;
     deviceInfo_children := c;
     requestCount_children := requestCount_children r |}.

Definition set_requestCount_children (c : gmap (list string) N) (r : Registry) : Registry :=
  {| upTime_children := upTime_children r;
     paired_children := paired_children r;
     garageLightOn_children := garageLightOn_children r;
     garageMotion_children := garageMotion_children r;
     garageObstructed_children := garageObstructed_children r;
     passwordRequired_children := passwordRequired_children r;
     freeHeap_children := freeHeap_children r;
     minHeap_children := minHeap_children r;
     minStack_children := minStack_children r;
     crashCount_children := crashCount_children r;
     garageDoorState_children := garageDoorState_children r;
     deviceInfo_children := deviceInfo_children r;
     requestCount_children := c |}.

(** The process state the handler works on: the registry and the lines
    written by [log.Printf]. *)
Record World : Type := {
  registry : Registry;
  stderr : list string
}.

(** A vector as the code holds it: its descriptor, fixed by [NewGaugeVec]
    or [NewCounterVec], and the place of its children in the registry. *)
Record MetricVec (V : Type) : Type := {
  Name : string;
  Help : string;
  variableLabels : list string;
  children : Registry -> gmap (list string) V;
  set_children : gmap (list string) V -> Registry -> Registry
}.
Arguments Name {V} _.
Arguments Help {V} _.
Arguments variableLabels {V} _.
Arguments children {V} _ _.
Arguments set_children {V} _ _ _.

Abbreviation GaugeVec := (MetricVec float64).
Abbreviation CounterVec := (MetricVec N).

(** A child of a vector: [prometheus.Gauge] or [prometheus.Counter]. *)
Record Metric (V : Type) : Type := {
  vec : MetricVec V;
  labelValues : list string
}.
Arguments vec {V} _.
Arguments labelValues {V} _.

(** ** Programs

    One atomic update of the process state; [None] is a Go panic. *)
Definition step : Type := World -> option World.

(** A straight-line program: the updates it performs, in order, and the
    value it returns.  The code never reads the registry back, so its
    control flow is decided by its inputs alone. *)
Definition prog (A : Type) : Type := (list step * A)%type.

Definition ret {A : Type} (a : A) : prog A := ([], a).

Definition bind {A B : Type} (p : prog A) (k : A -> prog B) : prog B :=
  let '(ss, b) := k p.2 in (p.1 ++ ss, b).

Definition atomic (s : step) : prog unit := ([s], tt).

Notation "x <- p ;; k" := (bind p (fun x => k))
  (at level 100, p at next level, right associativity,
   format "'[v' x  <-  p  ;;  '/' k ']'").
Notation "p ;; k" := (bind p (fun _ => k))
  (at level 100, right associativity, format "'[v' p  ;;  '/' k ']'").

(** Runs the updates in order.  A panic stops the run; what was written
    before it stays written.  The flag tells whether the run completed. *)
Fixpoint exec (ss : list step) (w : World) : World * bool :=
  match ss with
  | [] => (w, true)
  | s :: ss' =>
      match s w with
      | Some w' => exec ss' w'
      | None => (w, false)
      end
  end.

(** A call of a program: its value and the state it leaves, or a panic. *)
Definition run {A : Type} (p : prog A) (w : World) : option (A * World) :=
  let '(w', completed) := exec p.1 w in
  if completed then Some (p.2, w') else None.

Definition on_registry (f : Registry -> Registry) (w : World) : World :=
  {| registry := f (registry w); stderr := stderr w |}.

(** [log.Printf]: one more line on the standard error stream. *)
Definition log_Printf (line : string) : prog unit :=
  atomic (fun w => Some {| registry := registry w; stderr := stderr w ++ [line] |}).

(** [vec.WithLabelValues(lvs...)]: the child for these label values,
    created at the zero value when it does not exist yet.  Panics when
    the number of values is not the number of the vector's labels.  (The
    client also rejects a label value that is not valid UTF-8; the strings
    [encoding/json] decodes are valid, and so is the [-location] flag
    taken to be.) *)
Definition WithLabelValues {V : Type} (zero : V) (v : MetricVec V)
    (lvs : list string) : prog (Metric V) :=
  _ <- atomic (fun w =>
         if decide (length lvs = length (variableLabels v)) then
           match children v (registry w) !! lvs with
           | Some _ => Some w
           | None => Some (on_registry (set_children v (<[lvs := zero]> (children v (registry w)))) w)
           end
         else None) ;;
  ret {| vec := v; labelValues := lvs |}.

(** [prometheus.Labels]: a Go map from label names to label values. *)
Abbreviation Labels := (gmap string string).

(** [vec.With(labels)]: as [WithLabelValues], the values looked up by
    label name.  Panics when the map does not have exactly the vector's
    labels. *)
Definition With {V : Type} (zero : V) (v : MetricVec V) (labels : Labels)
    : prog (Metric V) :=
  match mapM (fun name => labels !! name) (variableLabels v) with
  | Some lvs =>
      if decide (size labels = length (variableLabels v)) then
        WithLabelValues zero v lvs
      else
        _ <- atomic (fun _ => None) ;; ret {| vec := v; labelValues := [] |}
  | None => _ <- atomic (fun _ => None) ;; ret {| vec := v; labelValues := [] |}
  end.

(** [gauge.Set(x)] *)
Definition Set_ (x : float64) (g : Metric float64) : prog unit :=
  atomic (fun w =>
    Some (on_registry
            (set_children (vec g)
               (<[labelValues g := x]> (children (vec g) (registry w)))) w)).

(** [counter.Inc()] *)
Definition Inc (c : Metric N) : prog unit :=
  atomic (fun w =>
    Some (on_registry
            (set_children (vec c)
               (<[labelValues c :=
                    (default 0%N (children (vec c) (registry w) !! labelValues c) + 1)%N]>
                  (children (vec c) (registry w)))) w)).

(** ** The vectors of [init()] *)


Definition upTime : GaugeVec :=
  {| Name := "homekit_ratgdo_up_time_seconds";
     Help := "Uptime of the garage door in seconds.";
     variableLabels := ["location"; "accessoryID"; "deviceName"; "localIP"; "macAddress"];
     children := upTime_children;
     set_children := set_upTime_children |}.

Definition paired : GaugeVec :=
  {| Name := "homekit_ratgdo_paired";
     Help := "Indicates if the garage door is paired.";
     variableLabels := ["location"; "accessoryID"; "deviceName"; "localIP"; "macAddress"];
     children := paired_children;
     set_children := set_paired_children |}.

Definition garageLightOn : GaugeVec :=
  {| Name := "homekit_ratgdo_light_on";
     Help := "Indicates if the garage light is on.";
     variableLabels := ["location"; "accessoryID"; "deviceName"; "localIP"; "macAddress"];
     children := garageLightOn_children;
     set_children := set_garageLightOn_children |}.

Definition garageMotion : GaugeVec :=
  {| Name := "homekit_ratgdo_motion";
     Help := "Indicates if there is motion detected in the garage.";
     variableLabels := ["location"; "accessoryID"; "deviceName"; "localIP"; "macAddress"];
     children := garageMotion_children;
     set_children := set_garageMotion_children |}.

Definition garageObstructed : GaugeVec :=
  {| Name := "homekit_ratgdo_obstructed";
     Help := "Indicates if the garage door is obstructed.";
     variableLabels := ["location"; "accessoryID"; "deviceName"; "localIP"; "macAddress"];
     children := garageObstructed_children;
     set_children := set_garageObstructed_children |}.

Definition passwordRequired : GaugeVec :=
  {| Name := "homekit_ratgdo_password_required";
     Help := "Indicates if a password is required.";
     variableLabels := ["location"; "accessoryID"; "deviceName"; "localIP"; "macAddress"];
     children := passwordRequired_children;
     set_children := set_passwordRequired_children |}.

Definition freeHeap : GaugeVec :=
  {| Name := "homekit_ratgdo_free_heap_bytes";
     Help := "Free heap memory in bytes.";
     variableLabels := ["location"; "accessoryID"; "deviceName"; "localIP"; "macAddress"];
     children := freeHeap_children;
     set_children := set_freeHeap_children |}.

Definition minHeap : GaugeVec :=
  {| Name := "homekit_ratgdo_min_heap_bytes";
     Help := "Minimum heap memory in bytes.";
     variableLabels := ["location"; "accessoryID"; "deviceName"; "localIP"; "macAddress"];
     children := minHeap_children;
     set_children := set_minHeap_children |}.

Definition minStack : GaugeVec :=
  {| Name := "homekit_ratgdo_min_stack_bytes";
     Help := "Minimum stack memory in bytes.";
     variableLabels := ["location"; "accessoryID"; "deviceName"; "localIP"; "macAddress"];
     children := minStack_children;
     set_children := set_minStack_children |}.

Definition crashCount : GaugeVec :=
  {| Name := "homekit_ratgdo_crash_count";
     Help := "Number of crashes.";
     variableLabels := ["location"; "accessoryID"; "deviceName"; "localIP"; "macAddress"];
     children := crashCount_children;
     set_children := set_crashCount_children |}.

Definition garageDoorState : GaugeVec :=
  {| Name := "homekit_ratgdo_door_state";
     Help := "The state of the garage door (0 = Closed, 1 = Open).";
     variableLabels := ["location"; "accessoryID"; "deviceName"; "localIP"; "macAddress"];
     children := garageDoorState_children;
     set_children := set_garageDoorState_children |}.

Definition deviceInfo : GaugeVec :=
  {| Name := "homekit_ratgdo_info";
     Help := "Garage door device info.";
     variableLabels :=
       ["location"; "firmwareVersion"; "subnetMask"; "gatewayIP"; "wifiSSID";
        "garageLockState"; "GDOSecurityType"];
     children := deviceInfo_children;
     set_children := set_deviceInfo_children |}.

Definition requestCount : CounterVec :=
  {| Name := "homekit_ratgdo_request_count";
     Help := "Count of HTTP requests to the JSON endpoint, labeled by status code class.";
     variableLabels := ["status_code_class"];
     children := requestCount_children;
     set_children := set_requestCount_children |}.

(** The gauge vectors in the order [init()] registers them. *)
Definition gaugeVecs : list GaugeVec :=
  [upTime; paired; garageLightOn; garageMotion; garageObstructed;
   passwordRequired; freeHeap; minHeap; minStack; crashCount;
   garageDoorState; deviceInfo].

(** The tail of [init()]: the four buckets of the request counter are
    created, at zero, before the first scrape. *)
Definition init : prog unit :=
  _ <- WithLabelValues 0%N requestCount ["2xx"] ;;
  _ <- WithLabelValues 0%N requestCount ["3xx"] ;;
  _ <- WithLabelValues 0%N requestCount ["4xx"] ;;
  _ <- WithLabelValues 0%N requestCount ["5xx"] ;;
  ret tt.

(** The state before [init()] runs: no child anywhere, nothing logged. *)
Definition World_zero : World :=
  {| registry :=
       {| upTime_children := ∅; paired_children := ∅;
          garageLightOn_children := ∅; garageMotion_children := ∅;
          garageObstructed_children := ∅; passwordRequired_children := ∅;
          freeHeap_children := ∅; minHeap_children := ∅;
          minStack_children := ∅; crashCount_children := ∅;
          garageDoorState_children := ∅; deviceInfo_children := ∅;
          requestCount_children := ∅ |};
     stderr := [] |}.

(** The state [main] starts serving from. *)
Definition World_init : World := (exec init.1 World_zero).1.

(** ** The upstream endpoint and the HTTP layer *)

(** A Go call returning [(value, err)]. *)
Inductive result (A : Type) : Type :=
  | Ok (a : A)
  | Err (err : error).
Arguments Ok {A} _.
Arguments Err {A} _.

(** [*http.Response], to the extent the code looks at it: the status
    code, and what [ioutil.ReadAll(resp.Body)] returns. *)
Record Response : Type := {
  StatusCode : Z;
  Body : result (list Byte.byte)
}.

Definition ioutil_ReadAll (b : result (list Byte.byte)) : result (list Byte.byte) := b.

Definition StatusOK : Z := 200.
Definition StatusInternalServerError : Z := 500.

(** One piece of a response body: a line of text, or the exposition of
    the registry as the encoder found it. *)
Inductive chunk : Type :=
  | Text (line : string)
  | Exposition (r : Registry).

(** [http.ResponseWriter]: the status line, once written, and the body
    written so far. *)
Record ResponseWriter : Type := {
  wroteHeader : option Z;
  wrote : list chunk
}.

Definition ResponseWriter_new : ResponseWriter :=
  {| wroteHeader := None; wrote := [] |}.

(** [w.WriteHeader(code)]: the first call fixes the status; a later call
    is superfluous and ignored. *)
Definition WriteHeader (code : Z) (w : ResponseWriter) : ResponseWriter :=
  match wroteHeader w with
  | Some _ => w
  | None => {| wroteHeader := Some code; wrote := wrote w |}
  end.

(** [w.Write(data)]: writes the header with [StatusOK] first when none
    was written. *)
Definition Write (c : chunk) (w : ResponseWriter) : ResponseWriter :=
  let w' := WriteHeader StatusOK w in
  {| wroteHeader := wroteHeader w'; wrote := wrote w' ++ [c] |}.

(** [http.Error(w, error, code)] *)
Definition http_Error (w : ResponseWriter) (msg : string) (code : Z) : ResponseWriter :=
  Write (Text msg) (WriteHeader code w).

(** [promhttp.Handler().ServeHTTP(w, r)]: renders the registry as it is
    now into the body. *)
Definition promhttp_Handler_ServeHTTP (w : ResponseWriter) (s : World) : ResponseWriter :=
  Write (Exposition (registry s)) w.

(** ** [fetchData] and [metricsHandler] *)

Section Exporter.

(** The [-location] flag. *)
Variable location : string.

(** [json.Unmarshal(body, &status)] of [encoding/json], from the bytes of
    the body and the value [status] holds before the call. *)
Variable json_Unmarshal : list Byte.byte -> Status -> result Status.

(** The five label values every gauge but the info gauge is set under. *)
Definition identity (status : Status) : list string :=
  [location; AccessoryID status; DeviceName status; LocalIP status;
   MacAddress status].

(** The body of [fetchData], after [mutex.Lock()] and
    [defer mutex.Unlock()]; [get] is what [http.Get(jsonAddress)]
    returned.  The bracket of the mutex is the business of the threads
    that call it (see [thread] below): in a run of one thread the mutex is
    free on entry and released on every exit.  [defer resp.Body.Close()]
    leaves no trace in the state modelled here. *)
Definition fetchData (get : result Response) : prog (Z * option error) :=
  match get with
  | Err err =>
      log_Printf ("Error fetching data: " +:+ err) ;;
      ret (0, Some err)
  | Ok resp =>
      match ioutil_ReadAll (Body resp) with
      | Err err =>
          log_Printf ("Error reading response body: " +:+ err) ;;
          ret (0, Some err)
      | Ok body =>
          match json_Unmarshal body Status_zero with
          | Err err =>
              log_Printf ("Error unmarshalling JSON: " +:+ err) ;;
              ret (0, Some err)
          | Ok status =>
              g <- WithLabelValues f0 upTime (identity status) ;;
              Set_ (float64_of_int (UpTime status)) g ;;
              g <- WithLabelValues f0 paired (identity status) ;;
              Set_ (boolToFloat (Paired status)) g ;;
              g <- WithLabelValues f0 garageLightOn (identity status) ;;
              Set_ (boolToFloat (GarageLightOn status)) g ;;
              g <- WithLabelValues f0 garageMotion (identity status) ;;
              Set_ (boolToFloat (GarageMotion status)) g ;;
              g <- WithLabelValues f0 garageObstructed (identity status) ;;
              Set_ (boolToFloat (GarageObstructed status)) g ;;
              g <- WithLabelValues f0 passwordRequired (identity status) ;;
              Set_ (boolToFloat (PasswordRequired status)) g ;;
              g <- WithLabelValues f0 freeHeap (identity status) ;;
              Set_ (float64_of_int (FreeHeap status)) g ;;
              g <- WithLabelValues f0 minHeap (identity status) ;;
              Set_ (float64_of_int (MinHeap status)) g ;;
              g <- WithLabelValues f0 minStack (identity status) ;;
              Set_ (float64_of_int (MinStack status)) g ;;
              g <- WithLabelValues f0 crashCount (identity status) ;;
              Set_ (float64_of_int (CrashCount status)) g ;;

              (if String.eqb (GarageDoorState status) "Closed" then
                 g <- WithLabelValues f0 garageDoorState (identity status) ;;
                 Set_ f0 g
               else if String.eqb (GarageDoorState status) "Open" then
                 g <- WithLabelValues f0 garageDoorState (identity status) ;;
                 Set_ f1 g
               else ret tt) ;;

              g <- With f0 deviceInfo
                     (<["location" := location]>
                      (<["firmwareVersion" := FirmwareVersion status]>
                      (<["subnetMask" := SubnetMask status]>
                      (<["gatewayIP" := GatewayIP status]>
                      (<["wifiSSID" := WifiSSID status]>
                      (<["garageLockState" := GarageLockState status]>
                      (<["GDOSecurityType" := GDOSecurityType status]> ∅))))))) ;;
              Set_ f1 g ;;

              ret (StatusCode resp, None)
          end
      end
  end.

(** [metricsHandler(w, r)]: one scrape.  [get] is the answer of the
    upstream endpoint to this scrape's request. *)
Definition metricsHandler (get : result Response) (w : ResponseWriter)
    (s : World) : option (ResponseWriter * World) :=
  '((statusCode, err), s) ← run (fetchData get) s;
  let w :=
    match err with
    | Some _ => http_Error w "Failed to fetch data" StatusInternalServerError
    | None => w
    end in
  '(_, s) ← run
    (if (200 <=? statusCode) && (statusCode <? 300) then
       c <- WithLabelValues 0%N requestCount ["2xx"] ;; Inc c
     else if (300 <=? statusCode) && (statusCode <? 400) then
       c <- WithLabelValues 0%N requestCount ["3xx"] ;; Inc c
     else if (400 <=? statusCode) && (statusCode <? 500) then
       c <- WithLabelValues 0%N requestCount ["4xx"] ;; Inc c
     else if 500 <=? statusCode then
       c <- WithLabelValues 0%N requestCount ["5xx"] ;; Inc c
     else ret tt) s;
  Some (promhttp_Handler_ServeHTTP w s, s).

(** A sequence of scrapes served one after the other, each with a fresh
    response writer; the responses are returned oldest first. *)
Fixpoint serve (gets : list (result Response)) (s : World)
    : option (list ResponseWriter * World) :=
  match gets with
  | [] => Some ([], s)
  | get :: gets' =>
      '(w, s') ← metricsHandler get ResponseWriter_new s;
      '(ws, s'') ← serve gets' s';
      Some (w :: ws, s'')
  end.

End Exporter.


(** ** Vectors as well-behaved places of the registry *)

Record lawful {V : Type} (v : MetricVec V) : Prop := {
  children_set : forall c r, children v (set_children v c r) = c;
  set_set : forall c c' r,
    set_children v c' (set_children v c r) = set_children v c' r;
  set_children_id : forall r, set_children v (children v r) r = r
}.

(** The net effect of [v.WithLabelValues(lvs...).Set(x)] on the registry. *)
Definition store {V : Type} (v : MetricVec V) (lvs : list string) (x : V)
    (r : Registry) : Registry :=
  set_children v (<[lvs := x]> (children v r)) r.


(** The net effect of [c.WithLabelValues(lvs...).Inc()]. *)
Definition bump (c : CounterVec) (lvs : list string) (r : Registry) : Registry :=
  store c lvs (default 0%N (children c r !! lvs) + 1)%N r.

(** ** Vocabulary of the statements *)

Section Vocabulary.

Variable location : string.
Variable json_Unmarshal : list Byte.byte -> Status -> result Status.

(** The label values of the info gauge, in the order of its labels. *)
Definition info (status : Status) : list string :=
  [location; FirmwareVersion status; SubnetMask status; GatewayIP status;
   WifiSSID status; GarageLockState status; GDOSecurityType status].

(** The map [fetchData] passes to [deviceInfo.With]. *)
Definition infoLabels (status : Status) : Labels :=
  <["location" := location]>
  (<["firmwareVersion" := FirmwareVersion status]>
  (<["subnetMask" := SubnetMask status]>
  (<["gatewayIP" := GatewayIP status]>
  (<["wifiSSID" := WifiSSID status]>
  (<["garageLockState" := GarageLockState status]>
  (<["GDOSecurityType" := GDOSecurityType status]> ∅)))))).

(** What [fetchData] does to the door-state gauge. *)
Definition storeDoor (status : Status) (r : Registry) : Registry :=
  if String.eqb (GarageDoorState status) "Closed" then
    store garageDoorState (identity location status) f0 r
  else if String.eqb (GarageDoorState status) "Open" then
    store garageDoorState (identity location status) f1 r
  else r.

(** The registry a scrape leaves once the body has decoded into
    [status]: the twelve writes of [fetchData], composed. *)
Definition storeStatus (status : Status) (r : Registry) : Registry :=
  let k := identity location status in
  store deviceInfo (info status) f1
  (storeDoor status
  (store crashCount k (float64_of_int (CrashCount status))
  (store minStack k (float64_of_int (MinStack status))
  (store minHeap k (float64_of_int (MinHeap status))
  (store freeHeap k (float64_of_int (FreeHeap status))
  (store passwordRequired k (boolToFloat (PasswordRequired status))
  (store garageObstructed k (boolToFloat (GarageObstructed status))
  (store garageMotion k (boolToFloat (GarageMotion status))
  (store garageLightOn k (boolToFloat (GarageLightOn status))
  (store paired k (boolToFloat (Paired status))
  (store upTime k (float64_of_int (UpTime status)) r))))))))))).

(** The status code the upstream GET obtained, if it obtained one. *)
Definition obtained (get : result Response) : option Z :=
  match get with
  | Ok resp => Some (StatusCode resp)
  | Err _ => None
  end.

(** The status code and the snapshot of a scrape whose body was read and
    decoded. *)
Definition decoded (get : result Response) : option (Z * Status) :=
  match get with
  | Ok resp =>
      match Body resp with
      | Ok body =>
          match json_Unmarshal body Status_zero with
          | Ok status => Some (StatusCode resp, status)
          | Err _ => None
          end
      | Err _ => None
      end
  | Err _ => None
  end.

End Vocabulary.

(** The status classes as the specification words them:
    [200,300) is 2xx, [300,400) is 3xx, [400,500) is 4xx, 500 and above
    is 5xx. *)
Definition status_class (code : Z) : option string :=
  if decide (200 <= code < 300) then Some "2xx"
  else if decide (300 <= code < 400) then Some "3xx"
  else if decide (400 <= code < 500) then Some "4xx"
  else if decide (500 <= code) then Some "5xx"
  else None.

(** The value of one bucket of the request counter. *)
Definition bucket (r : Registry) (class : string) : N :=
  default 0%N (requestCount_children r !! [class]).

(** The sum of the four buckets. *)
Definition buckets_total (r : Registry) : N :=
  (bucket r "2xx" + bucket r "3xx" + bucket r "4xx" + bucket r "5xx")%N.

(** What the switch of [metricsHandler] does to the registry. *)
Definition countRequest (statusCode : Z) (r : Registry) : Registry :=
  match status_class statusCode with
  | Some class => bump requestCount [class] r
  | None => r
  end.

Section Counting.

Variable location : string.
Variable json_Unmarshal : list Byte.byte -> Status -> result Status.

(** A scrape whose status code [metricsHandler] counts: [fetchData]
    returned it, and it is 200 or above. *)
Definition counted (get : result Response) : bool :=
  match decoded json_Unmarshal get with
  | Some (code, _) => bool_decide (200 <= code)
  | None => false
  end.

(** The registry one scrape leaves. *)
Definition scraped (get : result Response) (r : Registry) : Registry :=
  match decoded json_Unmarshal get with
  | Some (code, status) => countRequest code (storeStatus location status r)
  | None => r
  end.

(** A scrape that does not write the door-state child [k]: it fails, or
    decodes other label values, or a door state that is neither "Closed"
    nor "Open". *)
Definition leaves_door (k : list string) (get : result Response) : Prop :=
  match decoded json_Unmarshal get with
  | Some (_, status) =>
      identity location status = k ->
      GarageDoorState status <> "Closed" /\ GarageDoorState status <> "Open"
  | None => True
  end.

(** The ten numeric and boolean gauges read what [status] holds, under
    its identity labels. *)
Definition reads_snapshot (status : Status) (r : Registry) : Prop :=
  let k := identity location status in
  upTime_children r !! k = Some (float64_of_int (UpTime status)) /\
  paired_children r !! k = Some (boolToFloat (Paired status)) /\
  garageLightOn_children r !! k = Some (boolToFloat (GarageLightOn status)) /\
  garageMotion_children r !! k = Some (boolToFloat (GarageMotion status)) /\
  garageObstructed_children r !! k = Some (boolToFloat (GarageObstructed status)) /\
  passwordRequired_children r !! k = Some (boolToFloat (PasswordRequired status)) /\
  freeHeap_children r !! k = Some (float64_of_int (FreeHeap status)) /\
  minHeap_children r !! k = Some (float64_of_int (MinHeap status)) /\
  minStack_children r !! k = Some (float64_of_int (MinStack status)) /\
  crashCount_children r !! k = Some (float64_of_int (CrashCount status)).

End Counting.

(** ** Handler threads and the mutex

    A thread inside [fetchData]; its body is the list of atomic updates
    the call performs for the answer its own GET receives.  [Waiting]: at
    [mutex.Lock()], nothing of the body executed.  [Running]: holds the
    mutex, with the rest of the body to execute; when nothing is left, or
    a step panics, the deferred [mutex.Unlock()] is next.  [Done]:
    returned. *)
Inductive thread : Type :=
  | Waiting (body : list step)
  | Running (rest : list step)
  | Done.

(** Two threads, the mutex and the process state they share. *)
Record machine : Type := {
  mutex : bool;
  shared : World;
  thread1 : thread;
  thread2 : thread
}.

Inductive tid : Type := T1 | T2.

(** One step of a thread.  A thread at [mutex.Lock()] cannot step while
    the mutex is held; a thread that returned cannot step. *)
Definition advance (t : thread) (held : bool) (w : World)
    : option (thread * bool * World) :=
  match t with
  | Waiting body => if held then None else Some (Running body, true, w)
  | Running [] => Some (Done, false, w)
  | Running (s :: rest) =>
      match s w with
      | Some w' => Some (Running rest, held, w')
      | None => Some (Running [], held, w)
      end
  | Done => None
  end.

(** The scheduler lets thread [i] take one step. *)
Definition sched (i : tid) (m : machine) : option machine :=
  match i with
  | T1 =>
      '(t, held, w) ← advance (thread1 m) (mutex m) (shared m);
      Some {| mutex := held; shared := w; thread1 := t; thread2 := thread2 m |}
  | T2 =>
      '(t, held, w) ← advance (thread2 m) (mutex m) (shared m);
      Some {| mutex := held; shared := w; thread1 := thread1 m; thread2 := t |}
  end.

Fixpoint schedule (order : list tid) (m : machine) : option machine :=
  match order with
  | [] => Some m
  | i :: order' => m' ← sched i m; schedule order' m'
  end.

(** Two calls of [fetchData] about to start on the state [w]. *)
Definition start (w : World) (body1 body2 : list step) : machine :=
  {| mutex := false; shared := w;
     thread1 := Waiting body1; thread2 := Waiting body2 |}.

(** ** Values of [json.Unmarshal] used in the examples *)

Definition dquote : string := String (Ascii.ascii_of_nat 34) "".

Definition json_string (s : string) : string := dquote +:+ s +:+ dquote.

Fixpoint json_members (members : list (string * string)) : string :=
  match members with
  | [] => ""
  | [(k, v)] => json_string k +:+ ":" +:+ v
  | (k, v) :: rest => json_string k +:+ ":" +:+ v +:+ "," +:+ json_members rest
  end.

Definition json_object (members : list (string * string)) : list Byte.byte :=
  String.list_byte_of_string ("{" +:+ json_members members +:+ "}").

(** The body of the first end-to-end example of the specification. *)
Definition body_closed : list Byte.byte :=
  json_object
    [("garageDoorState", json_string "Closed"); ("garageLightOn", "true");
     ("accessoryID", json_string "AA"); ("deviceName", json_string "Door1");
     ("localIP", json_string "10.0.0.5"); ("macAddress", json_string "AA:BB");
     ("upTime", "120")].

(** The same device a little later, the door moving. *)
Definition body_opening : list Byte.byte :=
  json_object
    [("garageDoorState", json_string "Opening"); ("garageLightOn", "false");
     ("accessoryID", json_string "AA"); ("deviceName", json_string "Door1");
     ("localIP", json_string "10.0.0.5"); ("macAddress", json_string "AA:BB");
     ("upTime", "125")].

Definition status_door (door : string) (light : bool) (up : Z) (status : Status)
    : Status :=
  {| UpTime := up; DeviceName := "Door1"; Paired := Paired status;
     FirmwareVersion := FirmwareVersion status; AccessoryID := "AA";
     LocalIP := "10.0.0.5"; SubnetMask := SubnetMask status;
     GatewayIP := GatewayIP status; MacAddress := "AA:BB";
     WifiSSID := WifiSSID status; GDOSecurityType := GDOSecurityType status;
     GarageDoorState := door; GarageLockState := GarageLockState status;
     GarageLightOn := light; GarageMotion := GarageMotion status;
     GarageObstructed := GarageObstructed status;
     PasswordRequired := PasswordRequired status;
     RebootSeconds := RebootSeconds status; FreeHeap := FreeHeap status;
     MinHeap := MinHeap status; MinStack := MinStack status;
     CrashCount := CrashCount status; WifiPhyMode := WifiPhyMode status;
     WifiPower := WifiPower status; TTCseconds := TTCseconds status;
     MotionTriggers := MotionTriggers status; LEDidle := LEDidle status;
     LastDoorUpdateAt := LastDoorUpdateAt status;
     CheckFlashCRC := CheckFlashCRC status |}.

(** [json.Unmarshal] on the bodies the examples use: the two objects
    above fill the fields they name and leave the others as they were;
    the empty body is rejected, with the message of [encoding/json].  No
    example depends on the value at any other body. *)
Definition json_Unmarshal_examples (body : list Byte.byte) (status : Status)
    : result Status :=
  if decide (String.string_of_list_byte body
             = String.string_of_list_byte body_closed) then
    Ok (status_door "Closed" true 120 status)
  else if decide (String.string_of_list_byte body
                  = String.string_of_list_byte body_opening) then
    Ok (status_door "Opening" false 125 status)
  else Err "unexpected end of JSON input".

(** The states two calls can be in when one of them runs its body only
    while it holds the mutex: [w] is the state they started on, [body1]
    and [body2] what they execute.  What is left of a running body leads,
    from the shared state, to where the body leads when run alone. *)
Definition serialized (w : World) (body1 body2 : list step) (m : machine)
    : Prop :=
  match thread1 m, thread2 m with
  | Waiting b1, Waiting b2 =>
      b1 = body1 /\ b2 = body2 /\ mutex m = false /\ shared m = w
  | Running rest, Waiting b2 =>
      b2 = body2 /\ mutex m = true /\
      (exec rest (shared m)).1 = (exec body1 w).1
  | Waiting b1, Running rest =>
      b1 = body1 /\ mutex m = true /\
      (exec rest (shared m)).1 = (exec body2 w).1
  | Done, Waiting b2 =>
      b2 = body2 /\ mutex m = false /\ shared m = (exec body1 w).1
  | Waiting b1, Done =>
      b1 = body1 /\ mutex m = false /\ shared m = (exec body2 w).1
  | Done, Running rest =>
      mutex m = true /\
      (exec rest (shared m)).1 = (exec body2 (exec body1 w).1).1
  | Running rest, Done =>
      mutex m = true /\
      (exec rest (shared m)).1 = (exec body1 (exec body2 w).1).1
  | Done, Done =>
      mutex m = false /\
      (shared m = (exec body2 (exec body1 w).1).1 \/
       shared m = (exec body1 (exec body2 w).1).1)
  | Running _, Running _ => False
  end.

(** The snapshots the two example bodies decode into. *)
Definition status_closed : Status := status_door "Closed" true 120 Status_zero.
Definition status_opening : Status := status_door "Opening" false 125 Status_zero.

Definition get_closed : result Response :=
  Ok {| StatusCode := 200; Body := Ok body_closed |}.
Definition get_opening : result Response :=
  Ok {| StatusCode := 200; Body := Ok body_opening |}.

(** ** Vocabulary of further properties *)

(** The eleven vectors whose children are keyed by the identity labels. *)
Definition identityVecs : list GaugeVec :=
  [upTime; paired; garageLightOn; garageMotion; garageObstructed;
   passwordRequired; freeHeap; minHeap; minStack; crashCount;
   garageDoorState].

(** The vectors the code only ever sets to 0 or 1. *)
Definition flagVecs : list GaugeVec :=
  [paired; garageLightOn; garageMotion; garageObstructed; passwordRequired;
   garageDoorState].

(** The registry with the request counter blanked out: the gauges alone. *)
Definition gauges (r : Registry) : Registry :=
  set_requestCount_children ∅ r.

(** The four status classes [init()] creates a bucket for. *)
Definition classes : list string := ["2xx"; "3xx"; "4xx"; "5xx"].

Section Classes.

Variable json_Unmarshal : list Byte.byte -> Status -> result Status.

(** The bucket a scrape is counted in, if it is counted. *)
Definition counted_as (get : result Response) : option string :=
  match decoded json_Unmarshal get with
  | Some (code, _) => status_class code
  | None => None
  end.

(** A scrape that decodes a snapshot of other identity labels than [k],
    or none at all. *)
Definition other_device (k : list string) (location : string)
    (get : result Response) : Prop :=
  match decoded json_Unmarshal get with
  | Some (_, status) => identity location status <> k
  | None => True
  end.

End Classes.

(** ** Whole handlers side by side

    The switch of [metricsHandler] as a program of its own. *)
Definition countStatus (statusCode : Z) : prog unit :=
  if (200 <=? statusCode) && (statusCode <? 300) then
    c <- WithLabelValues 0%N requestCount ["2xx"] ;; Inc c
  else if (300 <=? statusCode) && (statusCode <? 400) then
    c <- WithLabelValues 0%N requestCount ["3xx"] ;; Inc c
  else if (400 <=? statusCode) && (statusCode <? 500) then
    c <- WithLabelValues 0%N requestCount ["4xx"] ;; Inc c
  else if 500 <=? statusCode then
    c <- WithLabelValues 0%N requestCount ["5xx"] ;; Inc c
  else ret tt.

(** A thread inside [metricsHandler], with the response writer of its
    request.  [AtLock]: [fetchData] was called and waits at
    [mutex.Lock()]; [ret] is what it will return.  [InFetch]: it holds
    the mutex, with the rest of its body to execute; when nothing is
    left, the deferred [mutex.Unlock()] runs and the call returns.
    [Unwinding]: a step of the body panicked, the deferred
    [mutex.Unlock()] is next.  [Counting]: [fetchData] has returned, the
    error (if any) is written to the response, the steps of the switch
    remain; when none is left, [promhttp.Handler().ServeHTTP] renders
    the registry.  [Served]: the handler returned.  [Aborted]: it
    panicked. *)
Inductive handler : Type :=
  | AtLock (body : list step) (ret : Z * option error) (w : ResponseWriter)
  | InFetch (rest : list step) (ret : Z * option error) (w : ResponseWriter)
  | Unwinding
  | Counting (rest : list step) (w : ResponseWriter)
  | Served (w : ResponseWriter)
  | Aborted.

(** One step of a handler, on the mutex and the shared state. *)
Definition handle (h : handler) (held : bool) (s : World)
    : option (handler * bool * World) :=
  match h with
  | AtLock body ret w =>
      if held then None else Some (InFetch body ret w, true, s)
  | InFetch [] (statusCode, err) w =>
      Some (Counting (countStatus statusCode).1
              match err with
              | Some _ =>
                  http_Error w "Failed to fetch data" StatusInternalServerError
              | None => w
              end,
            false, s)
  | InFetch (step :: rest) ret w =>
      match step s with
      | Some s' => Some (InFetch rest ret w, held, s')
      | None => Some (Unwinding, held, s)
      end
  | Unwinding => Some (Aborted, false, s)
  | Counting [] w => Some (Served (promhttp_Handler_ServeHTTP w s), held, s)
  | Counting (step :: rest) w =>
      match step s with
      | Some s' => Some (Counting rest w, held, s')
      | None => Some (Aborted, held, s)
      end
  | Served _ => None
  | Aborted => None
  end.

(** Two handlers, the mutex and the process state they share. *)
Record server : Type := {
  locked : bool;
  state : World;
  handler1 : handler;
  handler2 : handler
}.

Definition serve_step (i : tid) (m : server) : option server :=
  match i with
  | T1 =>
      '(h, held, s) ← handle (handler1 m) (locked m) (state m);
      Some {| locked := held; state := s; handler1 := h; handler2 := handler2 m |}
  | T2 =>
      '(h, held, s) ← handle (handler2 m) (locked m) (state m);
      Some {| locked := held; state := s; handler1 := handler1 m; handler2 := h |}
  end.

Fixpoint serve_steps (order : list tid) (m : server) : option server :=
  match order with
  | [] => Some m
  | i :: order' => m' ← serve_step i m; serve_steps order' m'
  end.

Section Handlers.

Variable location : string.
Variable json_Unmarshal : list Byte.byte -> Status -> result Status.

(** A request that has just entered [metricsHandler]. *)
Definition entering (get : result Response) : handler :=
  AtLock (fetchData location json_Unmarshal get).1
         (fetchData location json_Unmarshal get).2 ResponseWriter_new.

(** Two requests arrive while the process is in the state [s]. *)
Definition arrive (s : World) (get1 get2 : result Response) : server :=
  {| locked := false; state := s;
     handler1 := entering get1; handler2 := entering get2 |}.

End Handlers.

(** ** One more value of [json.Unmarshal]

    A device that reports an up-time of 2^53 + 1 seconds. *)
Definition body_aged : list Byte.byte :=
  json_object
    [("garageDoorState", json_string "Closed"); ("garageLightOn", "true");
     ("accessoryID", json_string "AA"); ("deviceName", json_string "Door1");
     ("localIP", json_string "10.0.0.5"); ("macAddress", json_string "AA:BB");
     ("upTime", "9007199254740993")].

Definition status_aged : Status :=
  status_door "Closed" true 9007199254740993 Status_zero.

(** [json.Unmarshal] on that body as well: the number fits the [int64]
    field [UpTime] and is stored as it is. *)
Definition json_Unmarshal_aged (body : list Byte.byte) (status : Status)
    : result Status :=
  if decide (String.string_of_list_byte body
             = String.string_of_list_byte body_aged) then
    Ok (status_door "Closed" true 9007199254740993 status)
  else json_Unmarshal_examples body status.
(** * The conversion of integers to [float64] *)

Lemma digits2_pos_bounds (p : positive) :
  2 ^ (Zpos (SpecFloat.digits2_pos p) - 1) <= Zpos p < 2 ^ Zpos (SpecFloat.digits2_pos p).
Proof.
  induction p as [p IH|p IH|]; cbn [SpecFloat.digits2_pos].
  - rewrite Pos2Z.inj_succ.
    replace (Z.succ (Zpos (SpecFloat.digits2_pos p)) - 1) with (Z.succ (Zpos (SpecFloat.digits2_pos p) - 1)) by lia.
    rewrite !Z.pow_succ_r by lia. lia.
  - rewrite Pos2Z.inj_succ.
    replace (Z.succ (Zpos (SpecFloat.digits2_pos p)) - 1) with (Z.succ (Zpos (SpecFloat.digits2_pos p) - 1)) by lia.
    rewrite !Z.pow_succ_r by lia. lia.
  - cbn. lia.
Qed.

Lemma iter_xO (p k : positive) :
  Zpos (Pos.iter xO p k) = Zpos p * 2 ^ Zpos k /\
  SpecFloat.digits2_pos (Pos.iter xO p k) = (SpecFloat.digits2_pos p + k)%positive.
Proof.
  induction k as [|k IH] using Pos.peano_ind.
  - cbn. split; lia.
  - rewrite Pos.iter_succ. destruct IH as [IH1 IH2].
    cbn [SpecFloat.digits2_pos]. rewrite IH2. split; [|lia].
    rewrite Pos2Z.inj_xO, IH1, Pos2Z.inj_succ, Z.pow_succ_r by lia. lia.
Qed.


Lemma binary_round_aux_canonical (s : bool) (m : positive) (e : Z) :
  Zpos (SpecFloat.digits2_pos m) = 53 ->
  -1074 <= e <= 971 ->
  SpecFloat.binary_round_aux 53 1024 s (Zpos m) e SpecFloat.loc_Exact
  = SpecFloat.S754_finite s m e.
Proof.
  intros Hd He.
  assert (Hshift : SpecFloat.fexp 53 1024 (Zpos (SpecFloat.digits2_pos m) + e) - e = 0).
  { rewrite Hd. unfold SpecFloat.fexp, SpecFloat.emin. lia. }
  unfold SpecFloat.binary_round_aux, SpecFloat.shr_fexp.
  cbn [SpecFloat.Zdigits2 SpecFloat.shr_record_of_loc].
  rewrite Hshift.
  cbn [SpecFloat.shr SpecFloat.shr_m SpecFloat.loc_of_shr_record
       SpecFloat.round_nearest_even SpecFloat.Zdigits2
       SpecFloat.shr_record_of_loc].
  rewrite Hshift. cbn [SpecFloat.shr SpecFloat.shr_m].
  destruct (Z.leb_spec e (1024 - 53)); [done|lia].
Qed.

Lemma binary_round_exact (s : bool) (p : positive) :
  Zpos p < 2 ^ 53 ->
  float64_to_int (SpecFloat.binary_round 53 1024 s p 0)
  = Some ((if s then -1 else 1) * Zpos p).
Proof.
  intros Hp.
  pose proof (digits2_pos_bounds p) as [Hlo Hhi].
  assert (Hd : Zpos (SpecFloat.digits2_pos p) <= 53).
  { destruct (Z_le_gt_dec (Zpos (SpecFloat.digits2_pos p)) 53) as [|Hgt]; [done|].
    assert (2 ^ 53 <= 2 ^ (Zpos (SpecFloat.digits2_pos p) - 1))
      by (apply Z.pow_le_mono_r; lia).
    lia. }
  unfold SpecFloat.binary_round.
  replace (SpecFloat.fexp 53 1024 (Zpos (SpecFloat.digits2_pos p) + 0))
    with (Zpos (SpecFloat.digits2_pos p) - 53)
    by (unfold SpecFloat.fexp, SpecFloat.emin; lia).
  unfold SpecFloat.shl_align.
  destruct (Zpos (SpecFloat.digits2_pos p) - 53 - 0) as [|k|k] eqn:Hk; [|lia|].
  - rewrite binary_round_aux_canonical by lia.
    cbn [float64_to_int]. by rewrite Z.pow_0_r, Z.mul_1_r.
  - destruct (iter_xO p k) as [Hval Hdig].
    rewrite binary_round_aux_canonical by (rewrite ?Hdig; lia).
    replace (Zpos (SpecFloat.digits2_pos p) - 53) with (Zneg k) by lia.
    cbn [float64_to_int]. rewrite Hval.
    assert (0 < 2 ^ Zpos k) by (apply Z.pow_pos_nonneg; lia).
    rewrite Z.mod_mul, Z.div_mul by lia. done.
Qed.

(** Integers of magnitude up to 2^53 convert without rounding. *)
Lemma float64_of_int_exact (n : Z) :
  - 2 ^ 53 <= n <= 2 ^ 53 ->
  float64_to_int (float64_of_int n) = Some n.
Proof.
  intros Hn. unfold float64_of_int, SpecFloat.binary_normalize.
  destruct n as [|p|p].
  - reflexivity.
  - destruct (Z.eq_dec (Zpos p) (2 ^ 53)) as [Heq|Hne].
    + injection Heq as ->. vm_compute. reflexivity.
    + rewrite binary_round_exact by lia. f_equal; lia.
  - destruct (Z.eq_dec (Zpos p) (2 ^ 53)) as [Heq|Hne].
    + injection Heq as ->. vm_compute. reflexivity.
    + rewrite binary_round_exact by lia. f_equal; lia.
Qed.

Example float64_of_int_120 : float64_to_int (float64_of_int 120) = Some 120.
Proof. vm_compute. reflexivity. Qed.

(** * Reasoning about programs *)

Lemma exec_app (ss1 ss2 : list step) (w : World) :
  exec (ss1 ++ ss2) w =
  (if (exec ss1 w).2 then exec ss2 (exec ss1 w).1 else exec ss1 w).
Proof.
  revert w. induction ss1 as [|s ss1 IH]; intros w; simpl; [done|].
  destruct (s w) as [w'|]; [apply IH | done].
Qed.

Lemma run_ret {A : Type} (a : A) (w : World) : run (ret a) w = Some (a, w).
Proof. reflexivity. Qed.

Lemma run_atomic (s : step) (w : World) :
  run (atomic s) w = (fun w' => (tt, w')) <$> s w.
Proof. unfold run; simpl. by destruct (s w). Qed.

Lemma run_bind {A B : Type} (p : prog A) (k : A -> prog B) (w : World) :
  run (bind p k) w =
  match run p w with
  | Some (a, w') => run (k a) w'
  | None => None
  end.
Proof.
  unfold run, bind. destruct (k p.2) as [ss b] eqn:Hk. simpl.
  rewrite exec_app. destruct (exec p.1 w) as [w1 [|]]; simpl; [|done].
  by rewrite Hk.
Qed.

Lemma run_exec {A : Type} (p : prog A) (w w' : World) (a : A) :
  run p w = Some (a, w') -> exec p.1 w = (w', true).
Proof.
  unfold run. destruct (exec p.1 w) as [w1 [|]]; [|done]. by intros [= _ <-].
Qed.

Lemma on_registry_id (w : World) : on_registry (fun r => r) w = w.
Proof. by destruct w. Qed.

Lemma on_registry_compose (f g : Registry -> Registry) (w : World) :
  on_registry g (on_registry f w) = on_registry (fun r => g (f r)) w.
Proof. reflexivity. Qed.

Lemma run_WithLabelValues {V : Type} (zero : V) (v : MetricVec V)
    (lvs : list string) (w : World) :
  length lvs = length (variableLabels v) ->
  run (WithLabelValues zero v lvs) w =
  Some ({| vec := v; labelValues := lvs |},
        match children v (registry w) !! lvs with
        | Some _ => w
        | None => on_registry (store v lvs zero) w
        end).
Proof.
  intros Hlen. unfold WithLabelValues. rewrite run_bind, run_atomic.
  rewrite decide_True by done.
  by destruct (children v (registry w) !! lvs).
Qed.

Lemma run_WithLabelValues_panic {V : Type} (zero : V) (v : MetricVec V)
    (lvs : list string) (w : World) :
  length lvs ≠ length (variableLabels v) ->
  run (WithLabelValues zero v lvs) w = None.
Proof.
  intros Hlen. unfold WithLabelValues. rewrite run_bind, run_atomic.
  by rewrite decide_False.
Qed.

Lemma run_Set (x : float64) (g : Metric float64) (w : World) :
  run (Set_ x g) w = Some (tt, on_registry (store (vec g) (labelValues g) x) w).
Proof. reflexivity. Qed.

Lemma store_store {V : Type} (v : MetricVec V) (lvs : list string) (x y : V)
    (r : Registry) :
  lawful v -> store v lvs y (store v lvs x r) = store v lvs y r.
Proof.
  intros [Hcs Hss _]. unfold store.
  by rewrite Hcs, Hss, insert_insert_eq.
Qed.

Lemma run_WithLabelValues_Set (v : GaugeVec) (lvs : list string)
    (zero x : float64) (w : World) :
  lawful v ->
  length lvs = length (variableLabels v) ->
  run (g <- WithLabelValues zero v lvs ;; Set_ x g) w =
  Some (tt, on_registry (store v lvs x) w).
Proof.
  intros Hv Hlen.
  rewrite run_bind, run_WithLabelValues by done.
  rewrite run_Set. simpl.
  destruct (children v (registry w) !! lvs); [done|].
  rewrite on_registry_compose. unfold on_registry; simpl.
  by rewrite store_store.
Qed.

Lemma run_WithLabelValues_Inc (c : CounterVec) (lvs : list string) (w : World) :
  lawful c ->
  length lvs = length (variableLabels c) ->
  run (m <- WithLabelValues 0%N c lvs ;; Inc m) w =
  Some (tt, on_registry (bump c lvs) w).
Proof.
  intros Hc Hlen.
  rewrite run_bind, run_WithLabelValues by done.
  unfold Inc. rewrite run_atomic. simpl. unfold bump.
  destruct (children c (registry w) !! lvs) as [n|] eqn:Hn.
  - reflexivity.
  - destruct Hc as [Hcs Hss _]. unfold on_registry, store; simpl.
    by rewrite Hcs, Hss, insert_insert_eq, lookup_insert_eq, Hn.
Qed.

(** ** The vectors of [main.go] are lawful *)

Lemma gaugeVecs_lawful : Forall lawful gaugeVecs.
Proof.
  repeat constructor; intros; try reflexivity; by destruct r.
Qed.

Lemma requestCount_lawful : lawful requestCount.
Proof. constructor; intros; try reflexivity; by destruct r. Qed.

Lemma lawful_gauge (v : GaugeVec) : v ∈ gaugeVecs -> lawful v.
Proof.
  intros Hv. eapply Forall_forall in Hv; [exact Hv | exact gaugeVecs_lawful].
Qed.

Lemma infoLabels_values (location : string) (status : Status) :
  mapM (fun name => infoLabels location status !! name) (variableLabels deviceInfo)
  = Some (info location status).
Proof. vm_compute. reflexivity. Qed.

Lemma infoLabels_size (location : string) (status : Status) :
  size (infoLabels location status) = length (variableLabels deviceInfo).
Proof. vm_compute. reflexivity. Qed.

Lemma run_Set_then {B : Type} (v : GaugeVec) (lvs : list string)
    (zero x : float64) (k : prog B) (w : World) :
  lawful v ->
  length lvs = length (variableLabels v) ->
  run (g <- WithLabelValues zero v lvs ;; Set_ x g ;; k) w =
  run k (on_registry (store v lvs x) w).
Proof.
  intros Hv Hlen.
  rewrite run_bind, run_WithLabelValues by done.
  rewrite run_bind, run_Set. simpl.
  destruct (children v (registry w) !! lvs); [done|].
  rewrite on_registry_compose. unfold on_registry; simpl.
  by rewrite store_store.
Qed.

Lemma run_With_Set_then {B : Type} (v : GaugeVec) (labels : Labels)
    (lvs : list string) (zero x : float64) (k : prog B) (w : World) :
  lawful v ->
  mapM (fun name => labels !! name) (variableLabels v) = Some lvs ->
  size labels = length (variableLabels v) ->
  run (g <- With zero v labels ;; Set_ x g ;; k) w =
  run k (on_registry (store v lvs x) w).
Proof.
  intros Hv Hlvs Hsize. unfold With. rewrite Hlvs, decide_True by done.
  apply run_Set_then; [done|].
  apply length_mapM in Hlvs. done.
Qed.

Section Scrape.

Variable location : string.
Variable json_Unmarshal : list Byte.byte -> Status -> result Status.

Ltac gauge_ok :=
  first [ apply lawful_gauge; unfold gaugeVecs; set_solver | reflexivity ].

(** The body decoded: [fetchData] performs its twelve writes and hands
    the upstream status code back. *)
Lemma run_fetchData_decoded (code : Z) (body : list Byte.byte)
    (status : Status) (w : World) :
  json_Unmarshal body Status_zero = Ok status ->
  run (fetchData location json_Unmarshal
         (Ok {| StatusCode := code; Body := Ok body |})) w =
  Some ((code, None), on_registry (storeStatus location status) w).
Proof.
  intros Hjson. unfold fetchData, ioutil_ReadAll. cbn [Body StatusCode].
  rewrite Hjson.
  do 10 (rewrite run_Set_then by gauge_ok).
  rewrite run_bind.
  set (w10 := on_registry (store crashCount _ _) _).
  assert (Hdoor :
    run (if String.eqb (GarageDoorState status) "Closed" then
           g <- WithLabelValues f0 garageDoorState (identity location status) ;;
           Set_ f0 g
         else if String.eqb (GarageDoorState status) "Open" then
           g <- WithLabelValues f0 garageDoorState (identity location status) ;;
           Set_ f1 g
         else ret tt) w10
    = Some (tt, on_registry (storeDoor location status) w10)).
  { unfold storeDoor.
    destruct (String.eqb (GarageDoorState status) "Closed");
      [by rewrite run_WithLabelValues_Set by gauge_ok|].
    destruct (String.eqb (GarageDoorState status) "Open");
      [by rewrite run_WithLabelValues_Set by gauge_ok|].
    by rewrite run_ret, on_registry_id. }
  rewrite Hdoor.
  rewrite (run_With_Set_then deviceInfo _ (info location status));
    [reflexivity | gauge_ok | apply infoLabels_values | apply infoLabels_size].
Qed.

(** Any failure: [fetchData] logs one line, writes nothing else, and
    returns status code 0 with the error. *)
Lemma run_fetchData_transport (err : error) (w : World) :
  run (fetchData location json_Unmarshal (Err err)) w =
  Some ((0, Some err),
        {| registry := registry w;
           stderr := stderr w ++ ["Error fetching data: " +:+ err] |}).
Proof. reflexivity. Qed.

Lemma run_fetchData_unread (code : Z) (err : error) (w : World) :
  run (fetchData location json_Unmarshal
         (Ok {| StatusCode := code; Body := Err err |})) w =
  Some ((0, Some err),
        {| registry := registry w;
           stderr := stderr w ++ ["Error reading response body: " +:+ err] |}).
Proof. reflexivity. Qed.

Lemma run_fetchData_undecoded (code : Z) (body : list Byte.byte)
    (err : error) (w : World) :
  json_Unmarshal body Status_zero = Err err ->
  run (fetchData location json_Unmarshal
         (Ok {| StatusCode := code; Body := Ok body |})) w =
  Some ((0, Some err),
        {| registry := registry w;
           stderr := stderr w ++ ["Error unmarshalling JSON: " +:+ err] |}).
Proof.
  intros Hjson. unfold fetchData, ioutil_ReadAll. cbn [Body StatusCode].
  by rewrite Hjson.
Qed.


Lemma run_fetchData_ok (get : result Response) (code : Z) (status : Status)
    (w : World) :
  decoded json_Unmarshal get = Some (code, status) ->
  run (fetchData location json_Unmarshal get) w =
  Some ((code, None), on_registry (storeStatus location status) w).
Proof.
  unfold decoded. destruct get as [[c [body|e]]|e]; try done.
  cbn [Body StatusCode].
  destruct (json_Unmarshal body Status_zero) as [st|e] eqn:Hjson; [|done].
  intros [= <- <-]. by apply run_fetchData_decoded.
Qed.

Lemma run_fetchData_failed (get : result Response) (w : World) :
  decoded json_Unmarshal get = None ->
  exists err line,
    run (fetchData location json_Unmarshal get) w =
    Some ((0, Some err),
          {| registry := registry w; stderr := stderr w ++ [line] |}).
Proof.
  unfold decoded. destruct get as [[c [body|e]]|e]; cbn [Body StatusCode].
  - destruct (json_Unmarshal body Status_zero) as [st|e] eqn:Hjson; [done|].
    intros _. eexists _, _. by apply run_fetchData_undecoded.
  - intros _. eexists _, _. apply run_fetchData_unread.
  - intros _. eexists _, _. apply run_fetchData_transport.
Qed.

(** The switch on the status code. *)
Lemma run_switch (statusCode : Z) (s : World) :
  run
    (if (200 <=? statusCode) && (statusCode <? 300) then
       c <- WithLabelValues 0%N requestCount ["2xx"] ;; Inc c
     else if (300 <=? statusCode) && (statusCode <? 400) then
       c <- WithLabelValues 0%N requestCount ["3xx"] ;; Inc c
     else if (400 <=? statusCode) && (statusCode <? 500) then
       c <- WithLabelValues 0%N requestCount ["4xx"] ;; Inc c
     else if 500 <=? statusCode then
       c <- WithLabelValues 0%N requestCount ["5xx"] ;; Inc c
     else ret tt) s
  = Some (tt, on_registry (countRequest statusCode) s).
Proof.
  unfold countRequest, status_class.
  repeat case_decide;
    repeat match goal with
    | |- context [?a <=? ?b] =>
        destruct (Z.leb_spec a b); try lia
    | |- context [?a <? ?b] =>
        destruct (Z.ltb_spec a b); try lia
    end; cbn [andb];
    first [ by rewrite run_WithLabelValues_Inc
              by (first [exact requestCount_lawful | reflexivity])
          | by rewrite run_ret, on_registry_id ].
Qed.

Lemma metricsHandler_ok (get : result Response) (code : Z) (status : Status)
    (w : ResponseWriter) (s : World) :
  decoded json_Unmarshal get = Some (code, status) ->
  let s' := on_registry (countRequest code)
              (on_registry (storeStatus location status) s) in
  metricsHandler location json_Unmarshal get w s =
  Some (promhttp_Handler_ServeHTTP w s', s').
Proof.
  intros Hget s'. unfold metricsHandler.
  rewrite (run_fetchData_ok _ _ _ _ Hget). cbn [mbind option_bind].
  by rewrite run_switch.
Qed.

Lemma metricsHandler_failed (get : result Response) (w : ResponseWriter)
    (s : World) :
  decoded json_Unmarshal get = None ->
  exists line,
    let s' := {| registry := registry s; stderr := stderr s ++ [line] |} in
    metricsHandler location json_Unmarshal get w s =
    Some (promhttp_Handler_ServeHTTP
            (http_Error w "Failed to fetch data" StatusInternalServerError) s',
          s').
Proof.
  intros Hget. destruct (run_fetchData_failed get s Hget) as (err & line & Hrun).
  exists line. unfold metricsHandler. rewrite Hrun. cbn [mbind option_bind].
  rewrite run_switch. by destruct s.
Qed.

End Scrape.

(** ** The registry after a scrape, field by field *)

Lemma storeStatus_fields (location : string) (status : Status) (r : Registry) :
  let k := identity location status in
  storeStatus location status r =
  {| upTime_children := <[k := float64_of_int (UpTime status)]> (upTime_children r);
     paired_children := <[k := boolToFloat (Paired status)]> (paired_children r);
     garageLightOn_children :=
       <[k := boolToFloat (GarageLightOn status)]> (garageLightOn_children r);
     garageMotion_children :=
       <[k := boolToFloat (GarageMotion status)]> (garageMotion_children r);
     garageObstructed_children :=
       <[k := boolToFloat (GarageObstructed status)]> (garageObstructed_children r);
     passwordRequired_children :=
       <[k := boolToFloat (PasswordRequired status)]> (passwordRequired_children r);
     freeHeap_children := <[k := float64_of_int (FreeHeap status)]> (freeHeap_children r);
     minHeap_children := <[k := float64_of_int (MinHeap status)]> (minHeap_children r);
     minStack_children := <[k := float64_of_int (MinStack status)]> (minStack_children r);
     crashCount_children :=
       <[k := float64_of_int (CrashCount status)]> (crashCount_children r);
     garageDoorState_children :=
       if String.eqb (GarageDoorState status) "Closed" then
         <[k := f0]> (garageDoorState_children r)
       else if String.eqb (GarageDoorState status) "Open" then
         <[k := f1]> (garageDoorState_children r)
       else garageDoorState_children r;
     deviceInfo_children := <[info location status := f1]> (deviceInfo_children r);
     requestCount_children := requestCount_children r |}.
Proof.
  unfold storeStatus, storeDoor.
  destruct (String.eqb (GarageDoorState status) "Closed"); [reflexivity|].
  destruct (String.eqb (GarageDoorState status) "Open"); reflexivity.
Qed.

Lemma countRequest_fields (code : Z) (r : Registry) :
  countRequest code r =
  set_requestCount_children
    (match status_class code with
     | Some class =>
         <[[class] := (default 0 (requestCount_children r !! [class]) + 1)%N]>
           (requestCount_children r)
     | None => requestCount_children r
     end) r.
Proof.
  unfold countRequest. destruct (status_class code); [reflexivity|].
  by destruct r.
Qed.

Lemma reads_snapshot_storeStatus (location : string) (status : Status)
    (code : Z) (r : Registry) :
  reads_snapshot location status
    (countRequest code (storeStatus location status r)).
Proof.
  rewrite countRequest_fields, storeStatus_fields. unfold reads_snapshot.
  cbn -[float64_of_int boolToFloat]. by rewrite !lookup_insert_eq.
Qed.

(** * The scrape cycle *)

Section Claims.

Variable location : string.
Variable json_Unmarshal : list Byte.byte -> Status -> result Status.

(** ** Failures of the fetch *)

(** C5.  A scrape whose upstream GET fails at the transport level, so
    that no status code is obtained, leaves the registry as it was (every
    gauge child and every bucket of the request counter), answers with
    HTTP 500, and still renders the registry. *)
Theorem transport_failure_scrape (err : error) (s : World) :
  exists w s',
    metricsHandler location json_Unmarshal (Err err) ResponseWriter_new s
      = Some (w, s') /\
    registry s' = registry s /\
    wroteHeader w = Some StatusInternalServerError /\
    wrote w = [Text "Failed to fetch data"; Exposition (registry s)].
Proof.
  destruct (metricsHandler_failed location json_Unmarshal (Err err)
              ResponseWriter_new s eq_refl) as [line Hrun].
  eexists _, _. split; [exact Hrun|]. by repeat split.
Qed.

(** C1, as the code has it.  The response of a scrape is 500 whenever
    [fetchData] fails, be it at the transport level, while reading the
    body or while decoding it, and 200 exactly when the body was read and
    decoded; a failed scrape carries the error text before the
    exposition. *)
Theorem scrape_response_status (get : result Response) (s : World) :
  exists w s',
    metricsHandler location json_Unmarshal get ResponseWriter_new s
      = Some (w, s') /\
    match decoded json_Unmarshal get with
    | Some _ =>
        wroteHeader w = Some StatusOK /\
        wrote w = [Exposition (registry s')]
    | None =>
        wroteHeader w = Some StatusInternalServerError /\
        wrote w = [Text "Failed to fetch data"; Exposition (registry s')]
    end.
Proof.
  destruct (decoded json_Unmarshal get) as [[code status]|] eqn:Hget.
  - eexists _, _. split;
      [exact (metricsHandler_ok _ _ _ _ _ ResponseWriter_new s Hget)|].
    by split.
  - destruct (metricsHandler_failed location json_Unmarshal get
                ResponseWriter_new s Hget) as [line Hrun].
    eexists _, _. split; [exact Hrun|]. by split.
Qed.

(** What one scrape does to the request counter, as the code stands: it
    increments exactly one bucket, by one, when [fetchData] returns a
    status code of 200 or above, which it does only once the body was read
    and decoded; the bucket is the status class of that code.  With the
    status code 0 that [fetchData] returns on its failure paths, or a code
    below 200, every bucket stays as it was. *)
Theorem scrape_counts_request (get : result Response) (s : World) :
  exists w s',
    metricsHandler location json_Unmarshal get ResponseWriter_new s
      = Some (w, s') /\
    requestCount_children (registry s') =
    match decoded json_Unmarshal get with
    | Some (code, _) =>
        match status_class code with
        | Some class =>
            <[[class] := (bucket (registry s) class + 1)%N]>
              (requestCount_children (registry s))
        | None => requestCount_children (registry s)
        end
    | None => requestCount_children (registry s)
    end.
Proof.
  destruct (decoded json_Unmarshal get) as [[code status]|] eqn:Hget.
  - eexists _, _. split;
      [exact (metricsHandler_ok _ _ _ _ _ ResponseWriter_new s Hget)|].
    cbn [registry on_registry].
    rewrite countRequest_fields, storeStatus_fields.
    by destruct (status_class code).
  - destruct (metricsHandler_failed location json_Unmarshal get
                ResponseWriter_new s Hget) as [line Hrun].
    eexists _, _. split; [exact Hrun|]. done.
Qed.

(** ** A decoded snapshot *)

Lemma decoded_Ok (code : Z) (body : list Byte.byte) (status : Status) :
  json_Unmarshal body Status_zero = Ok status ->
  decoded json_Unmarshal (Ok {| StatusCode := code; Body := Ok body |})
  = Some (code, status).
Proof. intros Hjson. unfold decoded. cbn [Body StatusCode]. by rewrite Hjson. Qed.

(** C4.  When the body decodes, the door-state gauge of the snapshot's
    identity labels reads 0 for "Closed" and 1 for "Open"; for any other
    door state the children of the door-state vector are exactly what
    they were before the scrape, while the ten numeric and boolean gauges
    and the info gauge are written all the same. *)
Theorem door_state_gauge (code : Z) (body : list Byte.byte) (status : Status)
    (s : World) :
  json_Unmarshal body Status_zero = Ok status ->
  exists w s',
    metricsHandler location json_Unmarshal
      (Ok {| StatusCode := code; Body := Ok body |}) ResponseWriter_new s
      = Some (w, s') /\
    (GarageDoorState status = "Closed" ->
       garageDoorState_children (registry s') !! identity location status
       = Some f0) /\
    (GarageDoorState status = "Open" ->
       garageDoorState_children (registry s') !! identity location status
       = Some f1) /\
    (GarageDoorState status <> "Closed" -> GarageDoorState status <> "Open" ->
       garageDoorState_children (registry s')
       = garageDoorState_children (registry s)) /\
    reads_snapshot location status (registry s') /\
    deviceInfo_children (registry s') !! info location status = Some f1 /\
    float64_to_int f0 = Some 0 /\ float64_to_int f1 = Some 1.
Proof.
  intros Hjson. apply (decoded_Ok code) in Hjson.
  eexists _, _. split;
    [exact (metricsHandler_ok _ _ _ _ _ ResponseWriter_new s Hjson)|].
  cbn [registry on_registry].
  split; [|split; [|split; [|split; [|split]]]].
  - intros Hdoor. rewrite countRequest_fields, storeStatus_fields.
    cbn [garageDoorState_children set_requestCount_children].
    rewrite Hdoor. cbn [String.eqb Ascii.eqb Bool.eqb]. apply lookup_insert_eq.
  - intros Hdoor. rewrite countRequest_fields, storeStatus_fields.
    cbn [garageDoorState_children set_requestCount_children].
    rewrite Hdoor. cbn [String.eqb Ascii.eqb Bool.eqb]. apply lookup_insert_eq.
  - intros Hclosed Hopen. rewrite countRequest_fields, storeStatus_fields.
    cbn [garageDoorState_children set_requestCount_children].
    apply String.eqb_neq in Hclosed, Hopen. by rewrite Hclosed, Hopen.
  - apply reads_snapshot_storeStatus.
  - rewrite countRequest_fields, storeStatus_fields.
    cbn [deviceInfo_children set_requestCount_children].
    apply lookup_insert_eq.
  - by split.
Qed.

(** C6, as the code has it.  When the body decodes, each of the ten
    numeric and boolean gauges holds, under the label values (location, accessoryID,
    deviceName, localIP, macAddress) of the fresh snapshot, the value of
    its field: the conversion [float64(field)] for a number, which is the
    number itself up to a magnitude of 2^53, and 1 for true, 0 for
    false. *)
Theorem gauges_follow_snapshot (code : Z) (body : list Byte.byte)
    (status : Status) (s : World) :
  json_Unmarshal body Status_zero = Ok status ->
  exists w s',
    metricsHandler location json_Unmarshal
      (Ok {| StatusCode := code; Body := Ok body |}) ResponseWriter_new s
      = Some (w, s') /\
    (let k := [location; AccessoryID status; DeviceName status;
               LocalIP status; MacAddress status] in
     let r := registry s' in
    upTime_children r !! k = Some (float64_of_int (UpTime status)) /\
    paired_children r !! k = Some (if Paired status then f1 else f0) /\
    garageLightOn_children r !! k = Some (if GarageLightOn status then f1 else f0) /\
    garageMotion_children r !! k = Some (if GarageMotion status then f1 else f0) /\
    garageObstructed_children r !! k
      = Some (if GarageObstructed status then f1 else f0) /\
    passwordRequired_children r !! k
      = Some (if PasswordRequired status then f1 else f0) /\
    freeHeap_children r !! k = Some (float64_of_int (FreeHeap status)) /\
    minHeap_children r !! k = Some (float64_of_int (MinHeap status)) /\
    minStack_children r !! k = Some (float64_of_int (MinStack status)) /\
    crashCount_children r !! k = Some (float64_of_int (CrashCount status)) /\
    Forall (fun v : GaugeVec =>
              variableLabels v
              = ["location"; "accessoryID"; "deviceName"; "localIP"; "macAddress"])
      [upTime; paired; garageLightOn; garageMotion; garageObstructed;
       passwordRequired; freeHeap; minHeap; minStack; crashCount] /\
    float64_to_int f1 = Some 1 /\ float64_to_int f0 = Some 0 /\
    (forall n, - 2 ^ 53 <= n <= 2 ^ 53 ->
       float64_to_int (float64_of_int n) = Some n)).
Proof.
  intros Hjson. apply (decoded_Ok code) in Hjson.
  eexists _, _. split;
    [exact (metricsHandler_ok _ _ _ _ _ ResponseWriter_new s Hjson)|].
  cbn [registry on_registry].
  pose proof (reads_snapshot_storeStatus location status code (registry s))
    as (H1 & H2 & H3 & H4 & H5 & H6 & H7 & H8 & H9 & H10).
  repeat split; try assumption.
  - repeat constructor.
  - apply float64_of_int_exact; lia.
Qed.

(** C7.  When the body decodes, the info gauge reads 1 under the label
    values (location, firmwareVersion, subnetMask, gatewayIP, wifiSSID,
    garageLockState, GDOSecurityType) of the snapshot; these seven are
    the labels of the vector, and accessoryID, deviceName, localIP and
    macAddress are not among them. *)
Theorem info_gauge (code : Z) (body : list Byte.byte) (status : Status)
    (s : World) :
  json_Unmarshal body Status_zero = Ok status ->
  exists w s',
    metricsHandler location json_Unmarshal
      (Ok {| StatusCode := code; Body := Ok body |}) ResponseWriter_new s
      = Some (w, s') /\
    deviceInfo_children (registry s') =
      <[[location; FirmwareVersion status; SubnetMask status;
         GatewayIP status; WifiSSID status; GarageLockState status;
         GDOSecurityType status] := f1]> (deviceInfo_children (registry s)) /\
    float64_to_int f1 = Some 1 /\
    variableLabels deviceInfo
      = ["location"; "firmwareVersion"; "subnetMask"; "gatewayIP"; "wifiSSID";
         "garageLockState"; "GDOSecurityType"] /\
    dom (infoLabels location status)
      = list_to_set (variableLabels deviceInfo) /\
    Forall (fun name => name ∉ variableLabels deviceInfo)
      ["accessoryID"; "deviceName"; "localIP"; "macAddress"].
Proof.
  intros Hjson. apply (decoded_Ok code) in Hjson.
  eexists _, _. split;
    [exact (metricsHandler_ok _ _ _ _ _ ResponseWriter_new s Hjson)|].
  cbn [registry on_registry].
  rewrite countRequest_fields, storeStatus_fields.
  repeat split.
  repeat constructor; cbn [variableLabels deviceInfo]; intros Hin;
    repeat (apply elem_of_cons in Hin as [Hin|Hin]; [discriminate Hin|]);
    by apply elem_of_nil in Hin.
Qed.

(** ** Sequences of scrapes *)

Lemma metricsHandler_registry (get : result Response) (w : ResponseWriter)
    (s : World) :
  exists w' s',
    metricsHandler location json_Unmarshal get w s = Some (w', s') /\
    registry s' = scraped location json_Unmarshal get (registry s).
Proof.
  unfold scraped.
  destruct (decoded json_Unmarshal get) as [[code status]|] eqn:Hget.
  - eexists _, _. split; [exact (metricsHandler_ok _ _ _ _ _ w s Hget)|]. done.
  - destruct (metricsHandler_failed location json_Unmarshal get w s Hget)
      as [line Hrun].
    eexists _, _. split; [exact Hrun|]. done.
Qed.

Lemma serve_registry (gets : list (result Response)) (s : World) :
  exists ws s',
    serve location json_Unmarshal gets s = Some (ws, s') /\
    length ws = length gets /\
    registry s' =
      foldl (fun r get => scraped location json_Unmarshal get r) (registry s) gets.
Proof.
  revert s. induction gets as [|get gets IH]; intros s.
  - by exists [], s.
  - destruct (metricsHandler_registry get ResponseWriter_new s)
      as (w & s1 & Hrun & Hreg).
    destruct (IH s1) as (ws & s2 & Hserve & Hlen & Hregs).
    exists (w :: ws), s2. cbn [serve]. rewrite Hrun. cbn [mbind option_bind].
    rewrite Hserve. cbn [mbind option_bind].
    split; [done|]. split; [by rewrite !length_cons, Hlen|].
    cbn [foldl]. by rewrite <- Hreg.
Qed.

Lemma requestCount_scraped (get : result Response) (r : Registry) :
  requestCount_children (scraped location json_Unmarshal get r) =
  match decoded json_Unmarshal get with
  | Some (code, _) =>
      match status_class code with
      | Some class =>
          <[[class] := (bucket r class + 1)%N]> (requestCount_children r)
      | None => requestCount_children r
      end
  | None => requestCount_children r
  end.
Proof.
  unfold scraped.
  destruct (decoded json_Unmarshal get) as [[code status]|]; [|done].
  rewrite countRequest_fields, storeStatus_fields.
  by destruct (status_class code).
Qed.

Lemma status_class_cases (code : Z) :
  (code < 200 /\ status_class code = None) \/
  (200 <= code /\
   (status_class code = Some "2xx" \/ status_class code = Some "3xx" \/
    status_class code = Some "4xx" \/ status_class code = Some "5xx")).
Proof.
  unfold status_class.
  repeat case_decide.
  all: try (right; split; [lia|]; tauto).
  left; split; [lia|reflexivity].
Qed.

Lemma scraped_monotone (get : result Response) (r : Registry)
    (lvs : list string) :
  (default 0 (requestCount_children r !! lvs)
   <= default 0 (requestCount_children
                   (scraped location json_Unmarshal get r) !! lvs))%N.
Proof.
  rewrite requestCount_scraped.
  destruct (decoded json_Unmarshal get) as [[code status]|]; [|done].
  destruct (status_class code) as [class|]; [|done].
  destruct (decide (lvs = [class])) as [->|Hne].
  - rewrite lookup_insert_eq. unfold bucket.
    destruct (requestCount_children r !! [class]); cbn; lia.
  - by rewrite lookup_insert_ne.
Qed.

Lemma scraped_total (get : result Response) (r : Registry) :
  buckets_total (scraped location json_Unmarshal get r) =
  (buckets_total r + if counted json_Unmarshal get then 1 else 0)%N.
Proof.
  unfold buckets_total, counted, bucket at 1 2 3 4.
  rewrite requestCount_scraped.
  destruct (decoded json_Unmarshal get) as [[code status]|]; [|unfold bucket; lia].
  destruct (status_class_cases code) as [[Hlt ->]|[Hge Hclass]].
  - rewrite bool_decide_false by lia. unfold bucket. lia.
  - rewrite bool_decide_true by lia.
    unfold bucket.
    destruct Hclass as [-> | [-> | [-> | ->]]];
      rewrite lookup_insert_eq, !lookup_insert_ne by done;
      destruct (requestCount_children r !! ["2xx"]),
               (requestCount_children r !! ["3xx"]),
               (requestCount_children r !! ["4xx"]),
               (requestCount_children r !! ["5xx"]); cbn; lia.
Qed.

(** The request counter over a sequence of scrapes, as the code stands:
    no child of it ever decreases, and the four buckets grow, in sum, by
    the number of scrapes in which [fetchData] returned a status code of
    200 or above. *)
Theorem request_counter_over_scrapes (gets : list (result Response))
    (s : World) :
  exists ws s',
    serve location json_Unmarshal gets s = Some (ws, s') /\
    (forall lvs,
       (default 0 (requestCount_children (registry s) !! lvs)
        <= default 0 (requestCount_children (registry s') !! lvs))%N) /\
    buckets_total (registry s') =
      (buckets_total (registry s)
       + N.of_nat (length (List.filter (counted json_Unmarshal) gets)))%N.
Proof.
  destruct (serve_registry gets s) as (ws & s' & Hserve & _ & Hreg).
  exists ws, s'. split; [done|]. rewrite Hreg. clear Hserve Hreg.
  generalize (registry s) as r. clear s s'.
  induction gets as [|get gets IH]; intros r.
  - cbn. split; [done|lia].
  - cbn [foldl List.filter].
    destruct (IH (scraped location json_Unmarshal get r)) as [Hmono Htotal].
    split.
    + intros lvs. etrans; [apply (scraped_monotone get)|apply Hmono].
    + rewrite Htotal, scraped_total.
      destruct (counted json_Unmarshal get); cbn [length]; lia.
Qed.

(** ** What [fetchData] returns *)

(** C9.  [fetchData] returns status code 0 with the error on each of its
    three failure paths, and the upstream status code with no error
    otherwise; the status code of a response whose body cannot be read or
    decoded is dropped, and [metricsHandler] answers a decode failure and
    a transport failure alike: same response, same registry. *)
Theorem fetchData_returns (get : result Response) (s : World) :
  (exists s',
     run (fetchData location json_Unmarshal get) s =
     Some (match get with
           | Err err => (0, Some err)
           | Ok resp =>
               match Body resp with
               | Err err => (0, Some err)
               | Ok body =>
                   match json_Unmarshal body Status_zero with
                   | Err err => (0, Some err)
                   | Ok _ => (StatusCode resp, None)
                   end
               end
           end, s')) /\
  (forall (get' : result Response) (w : ResponseWriter),
     decoded json_Unmarshal get = None ->
     decoded json_Unmarshal get' = None ->
     exists w' s1 s2,
       metricsHandler location json_Unmarshal get w s = Some (w', s1) /\
       metricsHandler location json_Unmarshal get' w s = Some (w', s2) /\
       registry s1 = registry s /\ registry s2 = registry s).
Proof.
  split.
  - destruct get as [[code [body|err]]|err]; cbn [Body StatusCode].
    + destruct (json_Unmarshal body Status_zero) as [status|err] eqn:Hjson.
      * eexists. by apply run_fetchData_decoded.
      * eexists. by apply run_fetchData_undecoded.
    + eexists. apply run_fetchData_unread.
    + eexists. apply run_fetchData_transport.
  - intros get' w Hget Hget'.
    destruct (metricsHandler_failed location json_Unmarshal get w s Hget)
      as [line Hrun].
    destruct (metricsHandler_failed location json_Unmarshal get' w s Hget')
      as [line' Hrun'].
    eexists _, _, _. split; [exact Hrun|]. split; [exact Hrun'|]. done.
Qed.

(** ** The door-state gauge over time *)

Lemma garageDoorState_scraped (get : result Response) (r : Registry)
    (k : list string) :
  leaves_door location json_Unmarshal k get ->
  garageDoorState_children (scraped location json_Unmarshal get r) !! k
  = garageDoorState_children r !! k.
Proof.
  unfold leaves_door, scraped.
  destruct (decoded json_Unmarshal get) as [[code status]|]; [|done].
  intros Hleaves. rewrite countRequest_fields, storeStatus_fields.
  cbn [garageDoorState_children set_requestCount_children].
  destruct (decide (identity location status = k)) as [Hk|Hk].
  - destruct (Hleaves Hk) as [Hclosed Hopen].
    apply String.eqb_neq in Hclosed, Hopen. by rewrite Hclosed, Hopen.
  - destruct (String.eqb (GarageDoorState status) "Closed");
      [by rewrite lookup_insert_ne|].
    destruct (String.eqb (GarageDoorState status) "Open");
      [by rewrite lookup_insert_ne|done].
Qed.

(** C10.  A scrape whose door state is neither "Closed" nor "Open"
    leaves the children of the door-state vector as they were.  Over any
    sequence of scrapes none of which decodes "Closed" or "Open" under
    the label values [k], the child [k] is what it was; when it did not
    exist, as is the case for every [k] when the process starts, it does
    not exist afterwards. *)
Theorem door_state_child_untouched (k : list string)
    (gets : list (result Response)) (s : World) :
  Forall (leaves_door location json_Unmarshal k) gets ->
  exists ws s',
    serve location json_Unmarshal gets s = Some (ws, s') /\
    garageDoorState_children (registry s') !! k
      = garageDoorState_children (registry s) !! k /\
    (garageDoorState_children (registry s) !! k = None ->
     garageDoorState_children (registry s') !! k = None) /\
    garageDoorState_children (registry World_init) !! k = None /\
    (forall code body status,
       gets = [Ok {| StatusCode := code; Body := Ok body |}] ->
       json_Unmarshal body Status_zero = Ok status ->
       GarageDoorState status <> "Closed" ->
       GarageDoorState status <> "Open" ->
       garageDoorState_children (registry s')
       = garageDoorState_children (registry s)).
Proof.
  intros Hgets.
  destruct (serve_registry gets s) as (ws & s' & Hserve & _ & Hreg).
  exists ws, s'. split; [done|].
  assert (Hk : garageDoorState_children (registry s') !! k
               = garageDoorState_children (registry s) !! k).
  { rewrite Hreg. clear Hserve Hreg. generalize (registry s) as r.
    induction Hgets as [|get gets Hget _ IH]; intros r; [done|].
    cbn [foldl]. rewrite IH. by apply garageDoorState_scraped. }
  split; [done|]. split; [by rewrite Hk|]. split; [done|].
  intros code body status -> Hjson Hclosed Hopen.
  rewrite Hreg. cbn [foldl]. unfold scraped.
  rewrite (decoded_Ok _ _ _ Hjson), countRequest_fields, storeStatus_fields.
  cbn [garageDoorState_children set_requestCount_children].
  apply String.eqb_neq in Hclosed, Hopen. by rewrite Hclosed, Hopen.
Qed.

End Claims.

(** * Concurrent scrapes *)

Lemma serialized_start (w : World) (body1 body2 : list step) :
  serialized w body1 body2 (start w body1 body2).
Proof. by repeat split. Qed.

Lemma serialized_sched (w : World) (body1 body2 : list step) (i : tid)
    (m m' : machine) :
  serialized w body1 body2 m ->
  sched i m = Some m' ->
  serialized w body1 body2 m'.
Proof.
  destruct m as [held sh t1 t2]. unfold serialized, sched.
  cbn [thread1 thread2 mutex shared].
  destruct i, t1 as [b1|[|s1 r1]|], t2 as [b2|[|s2 r2]|];
    cbn [advance]; intros Hinv Hstep;
    repeat match goal with
    | H : _ /\ _ |- _ => destruct H
    | H : False |- _ => destruct H
    end; subst;
    repeat match type of Hstep with
    | context [match ?s ?x with _ => _ end] =>
        match type of s with
        | step => destruct (s x) eqn:?
        end
    end;
    cbn in Hstep; try discriminate Hstep;
    injection Hstep as <-; cbn [thread1 thread2 mutex shared];
    repeat match goal with
    | H : (exec (?s :: _) ?x).1 = _ , Hs : ?s ?x = _ |- _ =>
        cbn [exec] in H; rewrite Hs in H
    end;
    cbn [exec fst] in *; subst; auto.
Qed.

Lemma serialized_schedule (w : World) (body1 body2 : list step)
    (order : list tid) (m m' : machine) :
  serialized w body1 body2 m ->
  schedule order m = Some m' ->
  serialized w body1 body2 m'.
Proof.
  revert m. induction order as [|i order IH]; intros m Hinv; cbn [schedule].
  - by intros [= <-].
  - destruct (sched i m) as [m1|] eqn:Hstep; [|done]. cbn.
    apply IH. by eapply serialized_sched.
Qed.


(** A thread that holds the mutex runs to its return when scheduled
    alone, whatever the other thread is. *)
Lemma schedule_running_1 (rest : list step) (w : World) (t2 : thread) :
  exists n,
    schedule (replicate n T1)
      {| mutex := true; shared := w; thread1 := Running rest; thread2 := t2 |}
    = Some {| mutex := false; shared := (exec rest w).1;
              thread1 := Done; thread2 := t2 |}.
Proof.
  revert w. induction rest as [|s rest IH]; intros w.
  - by exists 1%nat.
  - cbn [exec]. destruct (s w) as [w'|] eqn:Hs.
    + destruct (IH w') as [n Hn]. exists (S n).
      cbn [replicate schedule sched thread1 mutex shared advance].
      rewrite Hs. cbn. exact Hn.
    + exists 2%nat.
      cbn [replicate schedule sched thread1 mutex shared advance].
      by rewrite Hs.
Qed.

Lemma schedule_running_2 (rest : list step) (w : World) (t1 : thread) :
  exists n,
    schedule (replicate n T2)
      {| mutex := true; shared := w; thread1 := t1; thread2 := Running rest |}
    = Some {| mutex := false; shared := (exec rest w).1;
              thread1 := t1; thread2 := Done |}.
Proof.
  revert w. induction rest as [|s rest IH]; intros w.
  - by exists 1%nat.
  - cbn [exec]. destruct (s w) as [w'|] eqn:Hs.
    + destruct (IH w') as [n Hn]. exists (S n).
      cbn [replicate schedule sched thread2 mutex shared advance].
      rewrite Hs. cbn. exact Hn.
    + exists 2%nat.
      cbn [replicate schedule sched thread2 mutex shared advance].
      by rewrite Hs.
Qed.

Lemma schedule_app (order1 order2 : list tid) (m : machine) :
  schedule (order1 ++ order2) m = schedule order1 m ≫= schedule order2.
Proof.
  revert m. induction order1 as [|i order1 IH]; intros m; [done|].
  cbn [app schedule]. destruct (sched i m) as [m'|]; [|done]. apply IH.
Qed.

(** Both orders happen: either call may take the mutex first, and both
    calls return. *)
Lemma schedule_1_then_2 (w : World) (body1 body2 : list step) :
  exists order,
    schedule order (start w body1 body2)
    = Some {| mutex := false; shared := (exec body2 (exec body1 w).1).1;
              thread1 := Done; thread2 := Done |}.
Proof.
  destruct (schedule_running_1 body1 w (Waiting body2)) as [n1 H1].
  destruct (schedule_running_2 body2 (exec body1 w).1 Done) as [n2 H2].
  exists (T1 :: replicate n1 T1 ++ T2 :: replicate n2 T2).
  cbn [schedule start sched thread1 thread2 mutex shared advance mbind option_bind].
  rewrite schedule_app, H1. cbn. exact H2.
Qed.

Lemma schedule_2_then_1 (w : World) (body1 body2 : list step) :
  exists order,
    schedule order (start w body1 body2)
    = Some {| mutex := false; shared := (exec body1 (exec body2 w).1).1;
              thread1 := Done; thread2 := Done |}.
Proof.
  destruct (schedule_running_2 body2 w (Waiting body1)) as [n2 H2].
  destruct (schedule_running_1 body1 (exec body2 w).1 Done) as [n1 H1].
  exists (T2 :: replicate n2 T2 ++ T1 :: replicate n1 T1).
  cbn [schedule start sched thread1 thread2 mutex shared advance mbind option_bind].
  rewrite schedule_app, H2. cbn. exact H1.
Qed.

(** No deadlock: until both calls have returned, one of them can step. *)
Lemma serialized_progress (w : World) (body1 body2 : list step) (m : machine) :
  serialized w body1 body2 m ->
  (thread1 m = Done /\ thread2 m = Done) \/
  (exists i m', sched i m = Some m').
Proof.
  destruct m as [held sh t1 t2]. unfold serialized.
  cbn [thread1 thread2 mutex shared].
  destruct t1 as [b1|[|s1 r1]|], t2 as [b2|[|s2 r2]|]; intros Hinv;
    repeat match goal with
    | H : _ /\ _ |- _ => destruct H
    | H : False |- _ => destruct H
    end; subst; auto; right.
  all: try (exists T1; cbn [sched thread1 mutex shared advance];
            try destruct (s1 sh); by eexists).
  all: exists T2; cbn [sched thread2 mutex shared advance];
       try destruct (s2 sh); by eexists.
Qed.


Section Concurrent.

Variable location : string.
Variable json_Unmarshal : list Byte.byte -> Status -> result Status.

(** [fetchData] never panics: every call returns. *)
Lemma run_fetchData_total (get : result Response) (s : World) :
  exists v s',
    run (fetchData location json_Unmarshal get) s = Some (v, s') /\
    registry s' = match decoded json_Unmarshal get with
                  | Some (_, status) => storeStatus location status (registry s)
                  | None => registry s
                  end.
Proof.
  destruct (decoded json_Unmarshal get) as [[code status]|] eqn:Hget.
  - eexists _, _. split; [by apply run_fetchData_ok|done].
  - destruct (run_fetchData_failed location json_Unmarshal get s Hget)
      as (err & line & Hrun).
    eexists _, _. split; [exact Hrun|done].
Qed.

(** Two calls one after the other, from the state [s] to the state [s2]. *)
Lemma exec_fetchData_twice (get get' : result Response) (s : World) :
  exists v v' s1 s2,
    run (fetchData location json_Unmarshal get) s = Some (v, s1) /\
    run (fetchData location json_Unmarshal get') s1 = Some (v', s2) /\
    s2 = (exec (fetchData location json_Unmarshal get').1
            (exec (fetchData location json_Unmarshal get).1 s).1).1.
Proof.
  destruct (run_fetchData_total get s) as (v & s1 & Hrun & _).
  destruct (run_fetchData_total get' s1) as (v' & s2 & Hrun' & _).
  exists v, v', s1, s2. split; [done|]. split; [done|].
  rewrite (run_exec _ _ _ _ Hrun). cbn [fst].
  by rewrite (run_exec _ _ _ _ Hrun').
Qed.

(** C8, as the code has it.  Two scrapes run [fetchData] concurrently,
    in any order the scheduler picks.  While one call executes its body
    the other has not begun its own or has finished it; and once both have
    returned the state is the one the two calls leave when run one after
    the other, in one of the two orders.  When both bodies decode, the ten
    numeric and boolean gauges all read the one snapshot or all read the
    other; the door-state gauge is written as in any two scrapes in a
    row, and may keep what the earlier response set. *)
Theorem concurrent_scrapes_serialize (get1 get2 : result Response)
    (s : World) (order : list tid) (m : machine) :
  let body1 := (fetchData location json_Unmarshal get1).1 in
  let body2 := (fetchData location json_Unmarshal get2).1 in
  schedule order (start s body1 body2) = Some m ->
  (forall rest, thread1 m = Running rest ->
     thread2 m = Waiting body2 \/ thread2 m = Done) /\
  (forall rest, thread2 m = Running rest ->
     thread1 m = Waiting body1 \/ thread1 m = Done) /\
  (thread1 m = Done -> thread2 m = Done ->
     (exists v v' s1,
        (run (fetchData location json_Unmarshal get1) s = Some (v, s1) /\
         run (fetchData location json_Unmarshal get2) s1 = Some (v', shared m))
        \/
        (run (fetchData location json_Unmarshal get2) s = Some (v, s1) /\
         run (fetchData location json_Unmarshal get1) s1 = Some (v', shared m)))
     /\
     (forall code1 status1 code2 status2,
        decoded json_Unmarshal get1 = Some (code1, status1) ->
        decoded json_Unmarshal get2 = Some (code2, status2) ->
        reads_snapshot location status1 (registry (shared m)) \/
        reads_snapshot location status2 (registry (shared m)))).
Proof.
  intros body1 body2 Hrun.
  pose proof (serialized_schedule s body1 body2 order _ m
                (serialized_start s body1 body2) Hrun) as Hinv.
  clear Hrun. destruct m as [held sh t1 t2]. unfold serialized in Hinv.
  cbn [thread1 thread2 mutex shared] in *.
  split; [|split].
  - intros rest ->. destruct t2 as [b2|r2|]; [|done|by right].
    destruct Hinv as (-> & _). by left.
  - intros rest ->. destruct t1 as [b1|r1|]; [|done|by right].
    destruct Hinv as (-> & _). by left.
  - intros -> ->. destruct Hinv as [_ Hsh].
    assert (Hserial :
      exists v v' s1,
        (run (fetchData location json_Unmarshal get1) s = Some (v, s1) /\
         run (fetchData location json_Unmarshal get2) s1 = Some (v', sh)) \/
        (run (fetchData location json_Unmarshal get2) s = Some (v, s1) /\
         run (fetchData location json_Unmarshal get1) s1 = Some (v', sh))).
    { destruct Hsh as [-> | ->].
      - destruct (exec_fetchData_twice get1 get2 s)
          as (v & v' & s1 & s2 & H1 & H2 & ->).
        exists v, v', s1. by left.
      - destruct (exec_fetchData_twice get2 get1 s)
          as (v & v' & s1 & s2 & H1 & H2 & ->).
        exists v, v', s1. by right. }
    split; [exact Hserial|].
    intros code1 status1 code2 status2 Hget1 Hget2.
    destruct Hserial as (v & v' & s1 & [[_ Hlast] | [_ Hlast]]).
    + right. rewrite (run_fetchData_ok _ _ _ _ _ s1 Hget2) in Hlast.
      injection Hlast as _ <-.
      apply (reads_snapshot_storeStatus location status2 0).
    + left. rewrite (run_fetchData_ok _ _ _ _ _ s1 Hget1) in Hlast.
      injection Hlast as _ <-.
      apply (reads_snapshot_storeStatus location status1 0).
Qed.

End Concurrent.

(** C1 fails as stated: the upstream answers 200 with a body that does
    not decode, and the scrape answers 500. *)
Lemma undecoded_body_answers_500 :
  exists w s,
    metricsHandler "home" json_Unmarshal_examples
      (Ok {| StatusCode := 200; Body := Ok [] |}) ResponseWriter_new World_init
      = Some (w, s) /\
    json_Unmarshal_examples [] Status_zero = Err "unexpected end of JSON input" /\
    wroteHeader w = Some 500 /\
    wroteHeader w <> Some StatusOK.
Proof.
  eexists _, _. split; [vm_compute; reflexivity|]. by repeat split.
Qed.

(** C2, at the failing input.  The upstream answers 404 with an empty
    body: the status code was obtained, [fetchData] returns 0 in its
    place, and the 4xx bucket, which the claim has incremented, stays at
    0.  The same 404 with a body that decodes is counted. *)
Lemma undecoded_404_not_counted :
  exists w s w' s',
    metricsHandler "home" json_Unmarshal_examples
      (Ok {| StatusCode := 404; Body := Ok [] |}) ResponseWriter_new World_init
      = Some (w, s) /\
    obtained (Ok {| StatusCode := 404; Body := Ok [] |}) = Some 404 /\
    (fetchData "home" json_Unmarshal_examples
       (Ok {| StatusCode := 404; Body := Ok [] |})).2.1 = 0 /\
    status_class 404 = Some "4xx" /\
    bucket (registry World_init) "4xx" = 0%N /\
    bucket (registry s) "4xx" = 0%N /\
    requestCount_children (registry s)
      = requestCount_children (registry World_init) /\
    metricsHandler "home" json_Unmarshal_examples
      (Ok {| StatusCode := 404; Body := Ok body_closed |}) ResponseWriter_new
      World_init = Some (w', s') /\
    bucket (registry s') "4xx" = 1%N.
Proof.
  eexists _, _, _, _. split; [vm_compute; reflexivity|].
  do 6 (split; [reflexivity|]).
  split; [vm_compute; reflexivity|]. reflexivity.
Qed.

(** C3, at the failing input.  Two scrapes obtain the status code 404;
    the body of the first does not decode, that of the second does.  The
    buckets grow by one in sum, not by the two the claim counts: the
    scrape with the undecodable body adds nothing. *)
Lemma undecoded_scrape_not_in_sum :
  let gets := [Ok {| StatusCode := 404; Body := Ok [] |};
               Ok {| StatusCode := 404; Body := Ok body_closed |}] in
  exists ws s,
    serve "home" json_Unmarshal_examples gets World_init = Some (ws, s) /\
    length (List.filter (fun get => bool_decide (is_Some (obtained get))) gets)
      = 2%nat /\
    buckets_total (registry s) = (buckets_total (registry World_init) + 1)%N /\
    buckets_total (registry s)
      <> (buckets_total (registry World_init) + 2)%N.
Proof.
  eexists _, _. split; [vm_compute; reflexivity|]. by repeat split.
Qed.

(** C6 fails as stated: an up-time of 2^53 + 1 seconds decodes, and the
    up-time gauge reads 2^53. *)
Lemma upTime_beyond_2_53_is_rounded :
  exists w s x,
    json_Unmarshal_aged body_aged Status_zero = Ok status_aged /\
    UpTime status_aged = 2 ^ 53 + 1 /\
    metricsHandler "garage" json_Unmarshal_aged
      (Ok {| StatusCode := 200; Body := Ok body_aged |}) ResponseWriter_new
      World_init = Some (w, s) /\
    upTime_children (registry s)
      !! ["garage"; "AA"; "Door1"; "10.0.0.5"; "AA:BB"] = Some x /\
    x = float64_of_int (UpTime status_aged) /\
    float64_to_int x = Some (2 ^ 53) /\
    float64_to_int x <> Some (UpTime status_aged).
Proof.
  eexists _, _, _. split; [vm_compute; reflexivity|].
  split; [reflexivity|]. split; [vm_compute; reflexivity|].
  split; [vm_compute; reflexivity|]. split; [vm_compute; reflexivity|].
  split; [vm_compute; reflexivity|]. vm_compute. discriminate.
Qed.

(** C8 fails as stated: the first response reports the door closed after
    120 seconds, the second reports it opening after 125.  Once both
    concurrent calls have returned, the door-state gauge reads the 0 of
    the first response beside the up-time and the light of the second. *)
Lemma concurrent_scrapes_keep_door_state :
  let order := replicate 26 T1 ++ replicate 24 T2 in
  let k := ["garage"; "AA"; "Door1"; "10.0.0.5"; "AA:BB"] in
  exists m,
    schedule order
      (start World_init
         (fetchData "garage" json_Unmarshal_examples get_closed).1
         (fetchData "garage" json_Unmarshal_examples get_opening).1)
    = Some m /\
    thread1 m = Done /\ thread2 m = Done /\
    decoded json_Unmarshal_examples get_closed = Some (200, status_closed) /\
    decoded json_Unmarshal_examples get_opening = Some (200, status_opening) /\
    GarageDoorState status_closed = "Closed" /\
    GarageDoorState status_opening = "Opening" /\
    garageDoorState_children (registry (shared m)) !! k = Some f0 /\
    upTime_children (registry (shared m)) !! k
      = Some (float64_of_int (UpTime status_opening)) /\
    upTime_children (registry (shared m)) !! k
      <> Some (float64_of_int (UpTime status_closed)) /\
    garageLightOn_children (registry (shared m)) !! k
      = Some (boolToFloat (GarageLightOn status_opening)) /\
    garageLightOn_children (registry (shared m)) !! k
      <> Some (boolToFloat (GarageLightOn status_closed)).
Proof.
  eexists. split; [vm_compute; reflexivity|].
  do 2 (split; [reflexivity|]).
  do 2 (split; [vm_compute; reflexivity|]).
  do 2 (split; [reflexivity|]).
  split; [vm_compute; reflexivity|].
  split; [vm_compute; reflexivity|].
  split; [vm_compute; discriminate|].
  split; [vm_compute; reflexivity|].
  vm_compute. discriminate.
Qed.

(** * The theorems at work on the examples *)

Lemma door_state_gauge_closed :
  json_Unmarshal_examples body_closed Status_zero = Ok status_closed /\
  exists w s',
    metricsHandler "garage" json_Unmarshal_examples get_closed
      ResponseWriter_new World_init = Some (w, s') /\
    garageDoorState_children (registry s')
      !! ["garage"; "AA"; "Door1"; "10.0.0.5"; "AA:BB"] = Some f0.
Proof.
  split; [vm_compute; reflexivity|].
  destruct (door_state_gauge "garage" json_Unmarshal_examples 200 body_closed
              status_closed World_init)
    as (w & s' & Hrun & Hclosed & _); [vm_compute; reflexivity|].
  exists w, s'. split; [exact Hrun|]. exact (Hclosed eq_refl).
Defined.

Lemma gauges_follow_snapshot_closed :
  json_Unmarshal_examples body_closed Status_zero = Ok status_closed /\
  exists w s',
    metricsHandler "garage" json_Unmarshal_examples get_closed
      ResponseWriter_new World_init = Some (w, s') /\
    upTime_children (registry s')
      !! ["garage"; "AA"; "Door1"; "10.0.0.5"; "AA:BB"]
      = Some (float64_of_int 120) /\
    garageLightOn_children (registry s')
      !! ["garage"; "AA"; "Door1"; "10.0.0.5"; "AA:BB"] = Some f1.
Proof.
  split; [vm_compute; reflexivity|].
  destruct (gauges_follow_snapshot "garage" json_Unmarshal_examples 200
              body_closed status_closed World_init)
    as (w & s' & Hrun & Hup & _ & Hlight & _); [vm_compute; reflexivity|].
  exists w, s'. split; [exact Hrun|]. split; [exact Hup|exact Hlight].
Defined.

Lemma info_gauge_closed :
  json_Unmarshal_examples body_closed Status_zero = Ok status_closed /\
  exists w s',
    metricsHandler "garage" json_Unmarshal_examples get_closed
      ResponseWriter_new World_init = Some (w, s') /\
    deviceInfo_children (registry s')
    = <[["garage"; ""; ""; ""; ""; ""; ""] := f1]>
        (deviceInfo_children (registry World_init)).
Proof.
  split; [vm_compute; reflexivity|].
  destruct (info_gauge "garage" json_Unmarshal_examples 200 body_closed
              status_closed World_init)
    as (w & s' & Hrun & Hinfo & _); [vm_compute; reflexivity|].
  exists w, s'. split; [exact Hrun|exact Hinfo].
Defined.

Lemma fetchData_returns_404 :
  let get := Ok {| StatusCode := 404; Body := Ok [] |} in
  let get' := Err "connection refused" in
  decoded json_Unmarshal_examples get = None /\
  decoded json_Unmarshal_examples get' = None /\
  (exists s',
     run (fetchData "home" json_Unmarshal_examples get) World_init
     = Some ((0, Some "unexpected end of JSON input"), s')) /\
  exists w' s1 s2,
    metricsHandler "home" json_Unmarshal_examples get ResponseWriter_new
      World_init = Some (w', s1) /\
    metricsHandler "home" json_Unmarshal_examples get' ResponseWriter_new
      World_init = Some (w', s2) /\
    registry s1 = registry World_init /\ registry s2 = registry World_init.
Proof.
  intros get get'.
  split; [vm_compute; reflexivity|]. split; [vm_compute; reflexivity|].
  destruct (fetchData_returns "home" json_Unmarshal_examples get World_init)
    as [Hret Hsame].
  split; [exact Hret|].
  apply (Hsame get' ResponseWriter_new); vm_compute; reflexivity.
Defined.

Lemma door_state_child_untouched_opening :
  let k := ["garage"; "AA"; "Door1"; "10.0.0.5"; "AA:BB"] in
  let gets := [get_opening; Err "connection refused"; get_opening] in
  Forall (leaves_door "garage" json_Unmarshal_examples k) gets /\
  exists ws s',
    serve "garage" json_Unmarshal_examples gets World_init = Some (ws, s') /\
    garageDoorState_children (registry s') !! k = None.
Proof.
  intros k gets.
  assert (Hgets : Forall (leaves_door "garage" json_Unmarshal_examples k) gets).
  { constructor; [|constructor; [|constructor; [|constructor]]]; vm_compute;
      first [exact I | intros _; split; discriminate]. }
  split; [exact Hgets|].
  destruct (door_state_child_untouched "garage" json_Unmarshal_examples k gets
              World_init Hgets)
    as (ws & s' & Hserve & _ & Hnone & Hinit & _).
  exists ws, s'. split; [exact Hserve|]. exact (Hnone Hinit).
Defined.

Lemma concurrent_scrapes_serialize_examples :
  let order := replicate 26 T1 ++ replicate 24 T2 in
  exists m,
    schedule order
      (start World_init
         (fetchData "garage" json_Unmarshal_examples get_closed).1
         (fetchData "garage" json_Unmarshal_examples get_opening).1)
    = Some m /\
    thread1 m = Done /\ thread2 m = Done /\
    (reads_snapshot "garage" status_closed (registry (shared m)) \/
     reads_snapshot "garage" status_opening (registry (shared m))).
Proof.
  intros order.
  destruct (schedule order
              (start World_init
                 (fetchData "garage" json_Unmarshal_examples get_closed).1
                 (fetchData "garage" json_Unmarshal_examples get_opening).1))
    as [m|] eqn:Hm; [|vm_compute in Hm; discriminate Hm].
  exists m. split; [reflexivity|].
  assert (Hdone : thread1 m = Done /\ thread2 m = Done).
  { vm_compute in Hm. injection Hm as <-. by split. }
  destruct Hdone as [Hdone1 Hdone2].
  destruct (concurrent_scrapes_serialize "garage" json_Unmarshal_examples
              get_closed get_opening World_init order m Hm)
    as (_ & _ & Hserial).
  destruct (Hserial Hdone1 Hdone2) as [_ Hsnap].
  split; [exact Hdone1|]. split; [exact Hdone2|].
  apply (Hsnap 200 status_closed 200 status_opening); vm_compute; reflexivity.
Defined.

(** * Further properties of the scrape cycle *)

Section Further.

Variable location : string.
Variable json_Unmarshal : list Byte.byte -> Status -> result Status.

Lemma gaugeVecs_cases (v : GaugeVec) :
  v ∈ gaugeVecs -> v ∈ identityVecs \/ v = deviceInfo.
Proof.
  unfold gaugeVecs, identityVecs. rewrite !elem_of_cons, !elem_of_nil. tauto.
Qed.

(** What one scrape does to the children of an identity vector: nothing,
    or one write under the identity labels of the decoded snapshot. *)
Lemma identity_children_scraped (get : result Response) (r : Registry)
    (v : GaugeVec) :
  v ∈ identityVecs ->
  children v (scraped location json_Unmarshal get r) = children v r \/
  exists code status x,
    decoded json_Unmarshal get = Some (code, status) /\
    children v (scraped location json_Unmarshal get r)
    = <[identity location status := x]> (children v r) /\
    (v ∈ flagVecs -> x = f0 \/ x = f1).
Proof.
  intros Hv. unfold scraped.
  destruct (decoded json_Unmarshal get) as [[code status]|]; [|by left].
  rewrite countRequest_fields, storeStatus_fields.
  assert (Hflag : forall b, boolToFloat b = f0 \/ boolToFloat b = f1)
    by (intros [|]; auto).
  unfold identityVecs in Hv.
  repeat (apply elem_of_cons in Hv as [-> | Hv]);
    [..|by apply elem_of_nil in Hv];
    cbn [children upTime paired garageLightOn garageMotion garageObstructed
         passwordRequired freeHeap minHeap minStack crashCount
         garageDoorState set_requestCount_children
         upTime_children paired_children garageLightOn_children
         garageMotion_children garageObstructed_children
         passwordRequired_children freeHeap_children minHeap_children
         minStack_children crashCount_children garageDoorState_children].
  11: { destruct (String.eqb (GarageDoorState status) "Closed");
          [right; eexists _, _, _; eauto|].
        destruct (String.eqb (GarageDoorState status) "Open");
          [right; eexists _, _, _; eauto|by left]. }
  all: right; eexists _, _, _; split; [done|]; split; [done|].
  all: try (intros _; apply Hflag).
  all: intros Hin; unfold flagVecs in Hin;
    repeat (apply elem_of_cons in Hin as [Hin | Hin];
            [apply (f_equal Name) in Hin; discriminate Hin|]);
    by apply elem_of_nil in Hin.
Qed.


Lemma info_children_scraped (get : result Response) (r : Registry) :
  deviceInfo_children (scraped location json_Unmarshal get r)
  = match decoded json_Unmarshal get with
    | Some (_, status) =>
        <[info location status := f1]> (deviceInfo_children r)
    | None => deviceInfo_children r
    end.
Proof.
  unfold scraped.
  destruct (decoded json_Unmarshal get) as [[code status]|]; [|done].
  by rewrite countRequest_fields, storeStatus_fields.
Qed.

(** A scrape of another device, or a failed one, leaves the children
    under the identity labels [k] alone. *)
Lemma other_device_scraped (get : result Response) (r : Registry)
    (k : list string) (v : GaugeVec) :
  v ∈ identityVecs ->
  other_device json_Unmarshal k location get ->
  children v (scraped location json_Unmarshal get r) !! k = children v r !! k.
Proof.
  intros Hv Hother.
  destruct (identity_children_scraped get r v Hv)
    as [-> | (code & status & x & Hget & -> & _)]; [done|].
  unfold other_device in Hother. rewrite Hget in Hother.
  by rewrite lookup_insert_ne.
Qed.

(** X2.  Scraping the same answer twice leaves every gauge vector as the
    first scrape left it: a repeated snapshot creates no child and
    changes no value.  Only the request counter tells the two scrapes
    apart. *)
Theorem rescrape_leaves_gauges (get : result Response) (s : World) :
  exists ws1 s1 ws2 s2,
    serve location json_Unmarshal [get] s = Some (ws1, s1) /\
    serve location json_Unmarshal [get; get] s = Some (ws2, s2) /\
    gauges (registry s2) = gauges (registry s1).
Proof.
  destruct (serve_registry location json_Unmarshal [get] s)
    as (ws1 & s1 & Hserve1 & _ & Hreg1).
  destruct (serve_registry location json_Unmarshal [get; get] s)
    as (ws2 & s2 & Hserve2 & _ & Hreg2).
  exists ws1, s1, ws2, s2. split; [done|]. split; [done|].
  rewrite Hreg1, Hreg2. cbn [foldl]. unfold scraped, gauges.
  destruct (decoded json_Unmarshal get) as [[code status]|]; [|done].
  rewrite !countRequest_fields, !storeStatus_fields.
  cbn -[float64_of_int boolToFloat f0 f1 insert].
  rewrite !insert_insert_eq.
  destruct (String.eqb (GarageDoorState status) "Closed");
    [by rewrite insert_insert_eq|].
  destruct (String.eqb (GarageDoorState status) "Open");
    [by rewrite insert_insert_eq|done].
Qed.


(** X3.  A scrape that decodes a snapshot writes, in each identity
    vector, the child of the snapshot's identity labels at most, and in
    the info vector the child of the snapshot's info labels: every other
    child, such as the series of a device that since changed its name or
    address, or the info series of an older firmware, keeps its value. *)
Theorem scrape_leaves_other_series (code : Z) (body : list Byte.byte)
    (status : Status) (s : World) (k : list string) :
  json_Unmarshal body Status_zero = Ok status ->
  exists w s',
    metricsHandler location json_Unmarshal
      (Ok {| StatusCode := code; Body := Ok body |}) ResponseWriter_new s
      = Some (w, s') /\
    (k <> identity location status ->
     Forall (fun v : GaugeVec =>
               children v (registry s') !! k = children v (registry s) !! k)
       identityVecs) /\
    (k <> info location status ->
     deviceInfo_children (registry s') !! k
     = deviceInfo_children (registry s) !! k).
Proof.
  intros Hjson. pose proof (decoded_Ok json_Unmarshal code _ _ Hjson) as Hget.
  destruct (metricsHandler_registry location json_Unmarshal
              (Ok {| StatusCode := code; Body := Ok body |})
              ResponseWriter_new s) as (w & s' & Hrun & Hreg).
  exists w, s'. split; [done|]. rewrite Hreg. split.
  - intros Hk. apply Forall_forall. intros v Hv.
    apply other_device_scraped; [done|].
    unfold other_device. rewrite Hget. congruence.
  - intros Hk. rewrite info_children_scraped, Hget.
    by rewrite lookup_insert_ne.
Qed.

(** X4.  No series is ever removed: a child of any of the thirteen
    vectors that exists before a sequence of scrapes exists after it. *)
Theorem series_are_never_removed (gets : list (result Response)) (s : World) :
  exists ws s',
    serve location json_Unmarshal gets s = Some (ws, s') /\
    Forall (fun v : GaugeVec =>
              forall k, is_Some (children v (registry s) !! k) ->
                        is_Some (children v (registry s') !! k))
      gaugeVecs /\
    (forall k, is_Some (requestCount_children (registry s) !! k) ->
               is_Some (requestCount_children (registry s') !! k)).
Proof.
  destruct (serve_registry location json_Unmarshal gets s)
    as (ws & s' & Hserve & _ & Hreg).
  exists ws, s'. split; [done|]. rewrite Hreg. clear Hserve Hreg.
  generalize (registry s) as r. clear s s'.
  induction gets as [|get gets IH]; intros r.
  - split; [|done]. apply Forall_forall. by intros v _ k.
  - cbn [foldl].
    destruct (IH (scraped location json_Unmarshal get r)) as [IHg IHc].
    split.
    + apply Forall_forall. intros v Hv k Hk.
      apply (proj1 (Forall_forall _ _) IHg v Hv).
      destruct (gaugeVecs_cases v Hv) as [Hid | ->].
      * destruct (identity_children_scraped get r v Hid)
          as [-> | (code & status & x & _ & -> & _)]; [done|].
        rewrite lookup_insert. case_decide; [by eexists|done].
      * cbn [children deviceInfo]. rewrite info_children_scraped.
        destruct (decoded json_Unmarshal get) as [[code status]|]; [|done].
        rewrite lookup_insert. case_decide; [by eexists|done].
    + intros k Hk. apply IHc. rewrite requestCount_scraped.
      destruct (decoded json_Unmarshal get) as [[code status]|]; [|done].
      destruct (status_class code) as [class|]; [|done].
      rewrite lookup_insert. case_decide; [by eexists|done].
Qed.


(** X5.  A scrape adds at most one series to each gauge vector, and
    none to a vector that already has the child it writes. *)
Theorem scrape_adds_at_most_one_series (get : result Response) (s : World) :
  exists w s',
    metricsHandler location json_Unmarshal get ResponseWriter_new s
      = Some (w, s') /\
    Forall (fun v : GaugeVec =>
              (size (children v (registry s))
               <= size (children v (registry s'))
               <= S (size (children v (registry s))))%nat)
      gaugeVecs /\
    Forall (fun v : GaugeVec =>
              forall code status,
                decoded json_Unmarshal get = Some (code, status) ->
                is_Some (children v (registry s) !! identity location status) ->
                size (children v (registry s'))
                = size (children v (registry s)))
      identityVecs.
Proof.
  destruct (metricsHandler_registry location json_Unmarshal get
              ResponseWriter_new s) as (w & s' & Hrun & Hreg).
  exists w, s'. split; [done|]. rewrite Hreg.
  assert (Hsize : forall (m : gmap (list string) float64) k x,
            (size m <= size (<[k := x]> m) <= S (size m))%nat).
  { intros m k x. rewrite map_size_insert.
    destruct (m !! k); unfold id; lia. }
  split.
  - apply Forall_forall. intros v Hv.
    destruct (gaugeVecs_cases v Hv) as [Hid | ->].
    + destruct (identity_children_scraped get (registry s) v Hid)
        as [-> | (code & status & x & _ & -> & _)]; [lia|apply Hsize].
    + cbn [children deviceInfo]. rewrite info_children_scraped.
      destruct (decoded json_Unmarshal get) as [[code status]|];
        [apply Hsize|lia].
  - apply Forall_forall. intros v Hv code status Hget [y Hy].
    destruct (identity_children_scraped get (registry s) v Hv)
      as [-> | (code' & status' & x & Hget' & -> & _)]; [done|].
    rewrite Hget in Hget'. injection Hget' as <- <-.
    apply map_size_insert_Some. by eexists.
Qed.

(** ** Invariants from start-up *)

Lemma serve_invariant (P : Registry -> Prop) :
  (forall get r, P r -> P (scraped location json_Unmarshal get r)) ->
  forall gets s,
    P (registry s) ->
    exists ws s',
      serve location json_Unmarshal gets s = Some (ws, s') /\ P (registry s').
Proof.
  intros Hstep gets s Hs.
  destruct (serve_registry location json_Unmarshal gets s)
    as (ws & s' & Hserve & _ & Hreg).
  exists ws, s'. split; [done|]. rewrite Hreg. clear Hserve Hreg.
  revert Hs. generalize (registry s) as r. clear s s'.
  induction gets as [|get gets IH]; intros r Hr; [done|].
  cbn [foldl]. apply IH, Hstep, Hr.
Qed.

Lemma World_init_no_gauge (v : GaugeVec) :
  v ∈ gaugeVecs -> children v (registry World_init) = ∅.
Proof.
  unfold gaugeVecs. rewrite !elem_of_cons, elem_of_nil.
  intros H. repeat (destruct H as [-> | H]; [reflexivity|]). destruct H.
Qed.

Lemma World_init_buckets :
  requestCount_children (registry World_init)
  = <[["5xx"] := 0%N]> (<[["4xx"] := 0%N]> (<[["3xx"] := 0%N]>
      (<[["2xx"] := 0%N]> ∅))).
Proof. vm_compute. reflexivity. Qed.

Lemma flagVecs_identityVecs (v : GaugeVec) : v ∈ flagVecs -> v ∈ identityVecs.
Proof.
  unfold flagVecs, identityVecs. rewrite !elem_of_cons, !elem_of_nil. tauto.
Qed.

Lemma identityVecs_gaugeVecs (v : GaugeVec) : v ∈ identityVecs -> v ∈ gaugeVecs.
Proof.
  unfold gaugeVecs, identityVecs. rewrite !elem_of_cons, !elem_of_nil. tauto.
Qed.

(** X6.  From start-up on, after any sequence of scrapes, every child of
    the five boolean vectors and of the door-state vector reads 0 or 1,
    and every child of the info vector reads 1: the info gauge of a label
    set that is no longer reported is never taken back to 0. *)
Theorem flags_read_0_or_1 (gets : list (result Response)) :
  exists ws s',
    serve location json_Unmarshal gets World_init = Some (ws, s') /\
    Forall (fun v : GaugeVec =>
              forall k x, children v (registry s') !! k = Some x ->
                          x = f0 \/ x = f1)
      flagVecs /\
    (forall k x, deviceInfo_children (registry s') !! k = Some x -> x = f1).
Proof.
  apply (serve_invariant (fun r =>
    Forall (fun v : GaugeVec =>
              forall k x, children v r !! k = Some x -> x = f0 \/ x = f1)
      flagVecs /\
    (forall k x, deviceInfo_children r !! k = Some x -> x = f1))).
  - intros get r [Hflags Hinfo]. split.
    + apply Forall_forall. intros v Hv k x.
      pose proof (proj1 (Forall_forall _ _) Hflags v Hv) as Hold.
      destruct (identity_children_scraped get r v (flagVecs_identityVecs v Hv))
        as [-> | (code & status & y & _ & -> & Hy)]; [apply Hold|].
      rewrite lookup_insert. case_decide; [|apply Hold].
      intros [= <-]. by apply Hy.
    + intros k x. rewrite info_children_scraped.
      destruct (decoded json_Unmarshal get) as [[code status]|]; [|apply Hinfo].
      rewrite lookup_insert. case_decide; [|apply Hinfo]. by intros [= <-].
  - split.
    + apply Forall_forall. intros v Hv k x.
      rewrite (World_init_no_gauge v)
        by apply identityVecs_gaugeVecs, flagVecs_identityVecs, Hv.
      by rewrite lookup_empty.
    + intros k x. change (deviceInfo_children (registry World_init))
        with (children deviceInfo (registry World_init)).
      rewrite (World_init_no_gauge deviceInfo).
      * by rewrite lookup_empty.
      * unfold gaugeVecs. rewrite !elem_of_cons. tauto.
Qed.

(** X7.  From start-up on, after any sequence of scrapes, every series
    carries the configured location as its first label value and as many
    values as its vector has labels: five under the identity labels,
    seven for the info gauge. *)
Theorem series_carry_location (gets : list (result Response)) :
  exists ws s',
    serve location json_Unmarshal gets World_init = Some (ws, s') /\
    Forall (fun v : GaugeVec =>
              forall k, is_Some (children v (registry s') !! k) ->
                exists a d i m, k = [location; a; d; i; m])
      identityVecs /\
    (forall k, is_Some (deviceInfo_children (registry s') !! k) ->
       exists f n g w l t, k = [location; f; n; g; w; l; t]).
Proof.
  apply (serve_invariant (fun r =>
    Forall (fun v : GaugeVec =>
              forall k, is_Some (children v r !! k) ->
                exists a d i m, k = [location; a; d; i; m])
      identityVecs /\
    (forall k, is_Some (deviceInfo_children r !! k) ->
       exists f n g w l t, k = [location; f; n; g; w; l; t]))).
  - intros get r [Hid Hinfo]. split.
    + apply Forall_forall. intros v Hv k.
      pose proof (proj1 (Forall_forall _ _) Hid v Hv) as Hold.
      destruct (identity_children_scraped get r v Hv)
        as [-> | (code & status & y & _ & -> & _)]; [apply Hold|].
      rewrite lookup_insert. case_decide as Hk; [|apply Hold].
      intros _. subst k. unfold identity. by eexists _, _, _, _.
    + intros k. rewrite info_children_scraped.
      destruct (decoded json_Unmarshal get) as [[code status]|]; [|apply Hinfo].
      rewrite lookup_insert. case_decide as Hk; [|apply Hinfo].
      intros _. subst k. unfold info. by eexists _, _, _, _, _, _.
  - split.
    + apply Forall_forall. intros v Hv k.
      rewrite (World_init_no_gauge v) by apply identityVecs_gaugeVecs, Hv.
      rewrite lookup_empty. by intros [? ?].
    + intros k. change (deviceInfo_children (registry World_init))
        with (children deviceInfo (registry World_init)).
      rewrite (World_init_no_gauge deviceInfo).
      * rewrite lookup_empty. by intros [? ?].
      * unfold gaugeVecs. rewrite !elem_of_cons. tauto.
Qed.


(** ** The request counter since start-up *)

Lemma counted_as_class (get : result Response) (class : string) :
  counted_as json_Unmarshal get = Some class -> class ∈ classes.
Proof.
  unfold counted_as.
  destruct (decoded json_Unmarshal get) as [[code status]|]; [|done].
  unfold classes. rewrite !elem_of_cons.
  destruct (status_class_cases code) as [[_ ->]|[_ Hclass]]; [done|].
  intros Heq. rewrite Heq in Hclass.
  destruct Hclass as [[= ->] | [[= ->] | [[= ->] | [= ->]]]]; tauto.
Qed.

Lemma requestCount_scraped_as (get : result Response) (r : Registry) :
  requestCount_children (scraped location json_Unmarshal get r) =
  match counted_as json_Unmarshal get with
  | Some class =>
      <[[class] := (bucket r class + 1)%N]> (requestCount_children r)
  | None => requestCount_children r
  end.
Proof.
  rewrite requestCount_scraped. unfold counted_as.
  by destruct (decoded json_Unmarshal get) as [[code status]|].
Qed.

Lemma buckets_over_scrapes (gets : list (result Response)) (r : Registry) :
  (forall class, class ∈ classes ->
     is_Some (requestCount_children r !! [class])) ->
  let r' := foldl (fun r get => scraped location json_Unmarshal get r) r gets in
  dom (requestCount_children r') = dom (requestCount_children r) /\
  forall class, class ∈ classes ->
    requestCount_children r' !! [class] =
    Some (bucket r class
          + N.of_nat (length (filter (fun get =>
                                        counted_as json_Unmarshal get = Some class)
                                gets)))%N.
Proof.
  revert r. induction gets as [|get gets IH]; intros r Hr; cbn [foldl].
  - split; [done|]. intros class Hclass. unfold bucket.
    destruct (Hr class Hclass) as [n ->]. cbn. f_equal. lia.
  - set (r1 := scraped location json_Unmarshal get r).
    assert (Hr1 : dom (requestCount_children r1) = dom (requestCount_children r)
                  /\ forall class, class ∈ classes ->
                       requestCount_children r1 !! [class] =
                       Some (bucket r class
                             + if decide (counted_as json_Unmarshal get = Some class)
                               then 1 else 0)%N).
    { unfold r1. rewrite requestCount_scraped_as.
      destruct (counted_as json_Unmarshal get) as [class0|] eqn:Has.
      - pose proof (counted_as_class get class0 Has) as Hclass0.
        split.
        + rewrite dom_insert_L.
          apply subseteq_union_1_L, singleton_subseteq_l, elem_of_dom.
          by apply Hr.
        + intros class Hclass. rewrite lookup_insert.
          destruct (decide (class0 = class)) as [->|Hne].
          * rewrite decide_True by done. by rewrite decide_True by done.
          * rewrite decide_False by congruence.
            rewrite decide_False by congruence.
            unfold bucket. destruct (Hr class Hclass) as [n ->]. cbn.
            f_equal. lia.
      - split; [done|]. intros class Hclass. rewrite decide_False by done.
        unfold bucket. destruct (Hr class Hclass) as [n ->]. cbn.
        f_equal. lia. }
    destruct Hr1 as [Hdom1 Hval1].
    destruct (IH r1) as [Hdom Hval].
    { intros class Hclass. rewrite (Hval1 class Hclass). by eexists. }
    split; [by rewrite Hdom|].
    intros class Hclass. rewrite (Hval class Hclass). f_equal.
    unfold bucket at 1. rewrite (Hval1 class Hclass). cbn [default].
    unfold id. rewrite filter_cons.
    destruct (decide (counted_as json_Unmarshal get = Some class));
      cbn [length]; lia.
Qed.

(** X8.  The request counter has, at all times, exactly the four buckets
    [init()] creates, and since start-up each bucket has counted exactly
    the scrapes whose returned status code falls in its class. *)
Theorem buckets_count_by_class (gets : list (result Response)) :
  exists ws s',
    serve location json_Unmarshal gets World_init = Some (ws, s') /\
    dom (requestCount_children (registry s'))
      = list_to_set ((fun class => [class]) <$> classes) /\
    Forall (fun class =>
              requestCount_children (registry s') !! [class] =
              Some (N.of_nat
                      (length (filter (fun get =>
                                 counted_as json_Unmarshal get = Some class)
                               gets))))
      classes.
Proof.
  destruct (serve_registry location json_Unmarshal gets World_init)
    as (ws & s' & Hserve & _ & Hreg).
  exists ws, s'. split; [done|]. rewrite Hreg.
  destruct (buckets_over_scrapes gets (registry World_init)) as [Hdom Hval].
  { unfold classes. intros class. rewrite !elem_of_cons, elem_of_nil.
    intros [-> | [-> | [-> | [-> | []]]]]; by eexists. }
  split.
  - rewrite Hdom. apply leibniz_equiv. apply set_equiv. intros k.
    rewrite elem_of_dom. cbn. rewrite !elem_of_union, !elem_of_singleton.
    split.
    + intros [n Hn]. 
      destruct (decide (k = ["2xx"])); [tauto|].
      destruct (decide (k = ["3xx"])); [tauto|].
      destruct (decide (k = ["4xx"])); [tauto|].
      destruct (decide (k = ["5xx"])); [tauto|].
      exfalso. revert Hn. rewrite World_init_buckets.
      by rewrite !lookup_insert_ne, lookup_empty.
    + intros [-> | [-> | [-> | [-> | Hk]]]];
        first [by apply elem_of_empty in Hk | by eexists].
  - apply Forall_forall. intros class Hclass.
    rewrite (Hval class Hclass). f_equal.
    assert (Hzero : bucket (registry World_init) class = 0%N).
    { revert Hclass. unfold classes. rewrite !elem_of_cons, elem_of_nil.
      intros [-> | [-> | [-> | [-> | []]]]]; reflexivity. }
    rewrite Hzero. lia.
Qed.


(** ** The latest snapshot of a device *)

Lemma reads_snapshot_other_device (status : Status) (get : result Response)
    (r : Registry) :
  other_device json_Unmarshal (identity location status) location get ->
  reads_snapshot location status r ->
  reads_snapshot location status (scraped location json_Unmarshal get r).
Proof.
  intros Hother (H1 & H2 & H3 & H4 & H5 & H6 & H7 & H8 & H9 & H10).
  assert (Hframe : forall v : GaugeVec, v ∈ identityVecs ->
            children v (scraped location json_Unmarshal get r)
              !! identity location status
            = children v r !! identity location status)
    by (intros v Hv; by apply other_device_scraped).
  assert (Hin : forall v : GaugeVec,
            v ∈ [upTime; paired; garageLightOn; garageMotion; garageObstructed;
                 passwordRequired; freeHeap; minHeap; minStack; crashCount] ->
            v ∈ identityVecs)
    by (intros v; unfold identityVecs; rewrite !elem_of_cons, !elem_of_nil; tauto).
  unfold reads_snapshot.
  repeat split;
    [ rewrite <- H1; apply (Hframe upTime)
    | rewrite <- H2; apply (Hframe paired)
    | rewrite <- H3; apply (Hframe garageLightOn)
    | rewrite <- H4; apply (Hframe garageMotion)
    | rewrite <- H5; apply (Hframe garageObstructed)
    | rewrite <- H6; apply (Hframe passwordRequired)
    | rewrite <- H7; apply (Hframe freeHeap)
    | rewrite <- H8; apply (Hframe minHeap)
    | rewrite <- H9; apply (Hframe minStack)
    | rewrite <- H10; apply (Hframe crashCount) ];
    apply Hin; rewrite !elem_of_cons; tauto.
Qed.

(** X9.  The ten numeric and boolean gauges of a device read its latest
    decoded snapshot: scrapes that fail afterwards, and scrapes that
    decode snapshots of other identity labels, do not disturb them,
    however many follow. *)
Theorem latest_snapshot_is_read (before after : list (result Response))
    (get : result Response) (code : Z) (status : Status) (s : World) :
  decoded json_Unmarshal get = Some (code, status) ->
  Forall (other_device json_Unmarshal (identity location status) location)
    after ->
  exists ws s',
    serve location json_Unmarshal (before ++ get :: after) s = Some (ws, s') /\
    reads_snapshot location status (registry s').
Proof.
  intros Hget Hafter.
  destruct (serve_registry location json_Unmarshal (before ++ get :: after) s)
    as (ws & s' & Hserve & _ & Hreg).
  exists ws, s'. split; [done|]. rewrite Hreg, foldl_app. cbn [foldl].
  clear Hserve Hreg.
  generalize (foldl (fun r get => scraped location json_Unmarshal get r)
                (registry s) before) as r.
  intros r.
  assert (Hnow : reads_snapshot location status
                   (scraped location json_Unmarshal get r)).
  { unfold scraped. rewrite Hget. apply reads_snapshot_storeStatus. }
  revert Hnow.
  generalize (scraped location json_Unmarshal get r) as r1. clear r.
  induction Hafter as [|get' after Hother _ IH]; intros r1 Hr1; [done|].
  cbn [foldl]. apply IH. by apply reads_snapshot_other_device.
Qed.

(** ** The log *)



End Further.

(** * Handlers side by side *)

Lemma bind_steps {A B : Type} (p : prog A) (k : A -> prog B) :
  (bind p k).1 = p.1 ++ (k p.2).1.
Proof. unfold bind. by destruct (k p.2). Qed.

(** A program's value does not depend on the state it runs in. *)
Lemma run_value {A : Type} (p : prog A) (w w' : World) (a : A) :
  run p w = Some (a, w') -> a = p.2.
Proof.
  unfold run. destruct (exec p.1 w) as [w1 [|]]; [|done]. by intros [= <- _].
Qed.

Lemma serve_steps_app (order1 order2 : list tid) (m : server) :
  serve_steps (order1 ++ order2) m = serve_steps order1 m ≫= serve_steps order2.
Proof.
  revert m. induction order1 as [|i order1 IH]; intros m; [done|].
  cbn [app serve_steps]. destruct (serve_step i m) as [m'|]; [|done]. apply IH.
Qed.

(** A handler that holds the mutex executes a stretch of its body when
    scheduled alone. *)
Lemma in_fetch_alone_1 (steps rest : list step) (ret : Z * option error)
    (w : ResponseWriter) (h2 : handler) (s s' : World) :
  exec steps s = (s', true) ->
  exists n,
    serve_steps (replicate n T1)
      {| locked := true; state := s;
         handler1 := InFetch (steps ++ rest) ret w; handler2 := h2 |}
    = Some {| locked := true; state := s';
              handler1 := InFetch rest ret w; handler2 := h2 |}.
Proof.
  revert s. induction steps as [|step steps IH]; intros s; cbn [exec].
  - intros [= ->]. by exists 0%nat.
  - destruct (step s) as [s1|] eqn:Hstep; [|done]. intros Hexec.
    destruct (IH s1 Hexec) as [n Hn]. exists (S n).
    cbn [replicate serve_steps serve_step handler1 locked state handle app].
    rewrite Hstep. cbn. exact Hn.
Qed.

Lemma in_fetch_alone_2 (steps rest : list step) (ret : Z * option error)
    (w : ResponseWriter) (h1 : handler) (s s' : World) :
  exec steps s = (s', true) ->
  exists n,
    serve_steps (replicate n T2)
      {| locked := true; state := s;
         handler1 := h1; handler2 := InFetch (steps ++ rest) ret w |}
    = Some {| locked := true; state := s';
              handler1 := h1; handler2 := InFetch rest ret w |}.
Proof.
  revert s. induction steps as [|step steps IH]; intros s; cbn [exec].
  - intros [= ->]. by exists 0%nat.
  - destruct (step s) as [s1|] eqn:Hstep; [|done]. intros Hexec.
    destruct (IH s1 Hexec) as [n Hn]. exists (S n).
    cbn [replicate serve_steps serve_step handler2 locked state handle app].
    rewrite Hstep. cbn. exact Hn.
Qed.

Lemma counting_alone_1 (steps : list step) (w : ResponseWriter)
    (h2 : handler) (held : bool) (s s' : World) :
  exec steps s = (s', true) ->
  exists n,
    serve_steps (replicate n T1)
      {| locked := held; state := s;
         handler1 := Counting steps w; handler2 := h2 |}
    = Some {| locked := held; state := s';
              handler1 := Counting [] w; handler2 := h2 |}.
Proof.
  revert s. induction steps as [|step steps IH]; intros s; cbn [exec].
  - intros [= ->]. by exists 0%nat.
  - destruct (step s) as [s1|] eqn:Hstep; [|done]. intros Hexec.
    destruct (IH s1 Hexec) as [n Hn]. exists (S n).
    cbn [replicate serve_steps serve_step handler1 locked state handle].
    rewrite Hstep. cbn. exact Hn.
Qed.

Section Handlers.

Variable location : string.
Variable json_Unmarshal : list Byte.byte -> Status -> result Status.

(** The first handler, scheduled alone, gets as far as the call of
    [promhttp.Handler().ServeHTTP]: the state is the one
    [metricsHandler] leaves, the response writer the one it renders
    into. *)
Lemma handler_alone_to_render (get1 get2 : result Response) (s : World) :
  exists order w s',
    serve_steps order (arrive location json_Unmarshal s get1 get2)
    = Some {| locked := false; state := s'; handler1 := Counting [] w;
              handler2 := entering location json_Unmarshal get2 |} /\
    metricsHandler location json_Unmarshal get1 ResponseWriter_new s
    = Some (promhttp_Handler_ServeHTTP w s', s') /\
    w = match (fetchData location json_Unmarshal get1).2.2 with
        | Some _ =>
            http_Error ResponseWriter_new "Failed to fetch data"
              StatusInternalServerError
        | None => ResponseWriter_new
        end.
Proof.
  destruct (run (fetchData location json_Unmarshal get1) s)
    as [[[code err] s1]|] eqn:Hfetch.
  2: { destruct (run_fetchData_total location json_Unmarshal get1 s)
         as (v & s1 & Hrun & _). congruence. }
  pose proof (run_value _ _ _ _ Hfetch) as Hret.
  pose proof (run_exec _ _ _ _ Hfetch) as Hbody.
  pose proof (run_switch code s1) as Hswitch.
  fold (countStatus code) in Hswitch.
  pose proof (run_exec _ _ _ _ Hswitch) as Hcount.
  set (w := match err with
            | Some _ =>
                http_Error ResponseWriter_new "Failed to fetch data"
                  StatusInternalServerError
            | None => ResponseWriter_new
            end).
  destruct (in_fetch_alone_1 (fetchData location json_Unmarshal get1).1 []
              (fetchData location json_Unmarshal get1).2 ResponseWriter_new
              (entering location json_Unmarshal get2) s s1 Hbody)
    as [n1 Hn1].
  destruct (counting_alone_1 (countStatus code).1 w
              (entering location json_Unmarshal get2) false s1 _ Hcount)
    as [n2 Hn2].
  exists (T1 :: replicate n1 T1 ++ T1 :: replicate n2 T1), w,
         (on_registry (countRequest code) s1).
  split.
  - cbn [serve_steps arrive serve_step handler1 handler2 locked state handle
         entering mbind option_bind].
    rewrite serve_steps_app. rewrite app_nil_r in Hn1. rewrite Hn1.
    cbn [mbind option_bind serve_steps serve_step handler1 handler2 locked
         state handle].
    rewrite <- Hret.
    cbn [mbind option_bind serve_steps serve_step handler1 handler2 locked
         state handle].
    exact Hn2.
  - split; [|by rewrite <- Hret].
    unfold metricsHandler. rewrite Hfetch. cbn [mbind option_bind].
    fold (countStatus code). by rewrite Hswitch.
Qed.

(** The body of a call that decodes begins with the two steps that
    write the up-time gauge. *)
Lemma fetchData_steps_decoded (get : result Response) (code : Z)
    (status : Status) :
  decoded json_Unmarshal get = Some (code, status) ->
  exists rest,
    (fetchData location json_Unmarshal get).1 =
    (g <- WithLabelValues f0 upTime (identity location status) ;;
     Set_ (float64_of_int (UpTime status)) g).1 ++ rest.
Proof.
  unfold decoded. destruct get as [[c [body|e]]|e]; try done.
  cbn [Body StatusCode].
  destruct (json_Unmarshal body Status_zero) as [st|e] eqn:Hjson; [|done].
  intros [= <- <-]. unfold fetchData, ioutil_ReadAll. cbn [Body StatusCode].
  rewrite Hjson. rewrite !(bind_steps (WithLabelValues f0 upTime _)).
  cbn beta. rewrite (bind_steps (Set_ _ _)). cbn beta.
  rewrite app_assoc. by eexists.
Qed.

(** X11.  The exposition is rendered after [fetchData] has returned,
    outside the mutex, so a handler may render while the other is in the
    middle of its writes.  For two scrapes that decode snapshots of the
    same device there is a schedule in which the response to the first
    shows the up-time of the second snapshot beside the other nine
    gauges of the first. *)
Theorem exposition_can_mix_snapshots (get1 get2 : result Response)
    (code1 code2 : Z) (status1 status2 : Status) (s : World) :
  decoded json_Unmarshal get1 = Some (code1, status1) ->
  decoded json_Unmarshal get2 = Some (code2, status2) ->
  identity location status1 = identity location status2 ->
  exists order m w R,
    serve_steps order (arrive location json_Unmarshal s get1 get2) = Some m /\
    handler1 m = Served w /\
    wroteHeader w = Some StatusOK /\
    wrote w = [Exposition R] /\
    (let k := identity location status2 in
     upTime_children R !! k = Some (float64_of_int (UpTime status2)) /\
     paired_children R !! k = Some (boolToFloat (Paired status1)) /\
     garageLightOn_children R !! k = Some (boolToFloat (GarageLightOn status1)) /\
     garageMotion_children R !! k = Some (boolToFloat (GarageMotion status1)) /\
     garageObstructed_children R !! k
       = Some (boolToFloat (GarageObstructed status1)) /\
     passwordRequired_children R !! k
       = Some (boolToFloat (PasswordRequired status1)) /\
     freeHeap_children R !! k = Some (float64_of_int (FreeHeap status1)) /\
     minHeap_children R !! k = Some (float64_of_int (MinHeap status1)) /\
     minStack_children R !! k = Some (float64_of_int (MinStack status1)) /\
     crashCount_children R !! k = Some (float64_of_int (CrashCount status1))).
Proof.
  intros Hget1 Hget2 Hid.
  destruct (handler_alone_to_render get1 get2 s)
    as (order1 & w & s1 & Hsteps1 & Hhandler & Hw).
  rewrite (metricsHandler_ok _ _ _ _ _ ResponseWriter_new s Hget1) in Hhandler.
  cbv zeta in Hhandler.
  assert (Hs1 : s1 = on_registry (countRequest code1)
                       (on_registry (storeStatus location status1) s))
    by congruence.
  assert (Hret1 : (fetchData location json_Unmarshal get1).2 = (code1, None)).
  { symmetry.
    exact (run_value _ _ _ _ (run_fetchData_ok _ _ _ _ _ s Hget1)). }
  rewrite Hret1 in Hw. cbn [snd] in Hw. subst w.
  destruct (fetchData_steps_decoded get2 code2 status2 Hget2) as [rest Hbody2].
  set (k := identity location status2) in *.
  set (x := float64_of_int (UpTime status2)) in *.
  assert (Hexec : exec (g <- WithLabelValues f0 upTime k ;; Set_ x g).1 s1
                  = (on_registry (store upTime k x) s1, true)).
  { eapply run_exec. apply run_WithLabelValues_Set; [|done].
    apply lawful_gauge. unfold gaugeVecs. rewrite !elem_of_cons. tauto. }
  destruct (in_fetch_alone_2 _ rest
              (fetchData location json_Unmarshal get2).2 ResponseWriter_new
              (Counting [] ResponseWriter_new) s1 _ Hexec) as [n2 Hn2].
  eexists (order1 ++ T2 :: replicate n2 T2 ++ [T1]), _, _, _.
  split.
  { rewrite serve_steps_app, Hsteps1.
    cbn [mbind option_bind serve_steps serve_step handler1 handler2 locked
         state handle entering].
    rewrite Hbody2, serve_steps_app, Hn2.
    cbn [mbind option_bind serve_steps serve_step handler1 handler2 locked
         state handle].
    reflexivity. }
  cbn [handler1]. split; [reflexivity|]. split; [reflexivity|].
  split; [reflexivity|].
  rewrite Hs1. cbn [registry on_registry].
  pose proof (reads_snapshot_storeStatus location status1 code1 (registry s))
    as (H1 & H2 & H3 & H4 & H5 & H6 & H7 & H8 & H9 & H10).
  rewrite Hid in H1, H2, H3, H4, H5, H6, H7, H8, H9, H10.
  fold k in H2, H3, H4, H5, H6, H7, H8, H9, H10.
  cbv zeta. split; [apply lookup_insert_eq|].
  by repeat split.
Qed.

End Handlers.

(** * The mutex *)

(** X12.  Whatever the two bodies do, the mutex is held exactly while
    one call is inside its body: it is released when the call returns,
    also when a step of the body panics, since the unlock is deferred.
    And two concurrent calls never deadlock: until both have returned,
    one of them can take a step. *)
Theorem mutex_held_iff_running (w : World) (body1 body2 : list step)
    (order : list tid) (m : machine) :
  schedule order (start w body1 body2) = Some m ->
  (mutex m = true <->
   (exists rest, thread1 m = Running rest) \/
   (exists rest, thread2 m = Running rest)) /\
  ((thread1 m = Done /\ thread2 m = Done) \/
   (exists i m', sched i m = Some m')).
Proof.
  intros Hrun.
  pose proof (serialized_schedule w body1 body2 order _ m
                (serialized_start w body1 body2) Hrun) as Hinv.
  split; [|by eapply serialized_progress].
  clear Hrun. destruct m as [held sh t1 t2]. unfold serialized in Hinv.
  cbn [thread1 thread2 mutex shared] in *.
  destruct t1 as [b1|r1|], t2 as [b2|r2|];
    repeat match goal with
    | H : _ /\ _ |- _ => destruct H
    | H : False |- _ => destruct H
    end; subst; split;
    first [ intros _; by eauto
          | intros [[? [=]] | [? [=]]]
          | intros [=] ].
Qed.

(** * The further properties on the examples *)

Lemma scrape_leaves_other_series_closed :
  let k := ["garage"; "AA"; "Door0"; "10.0.0.4"; "AA:BB"] in
  json_Unmarshal_examples body_closed Status_zero = Ok status_closed /\
  exists w s',
    metricsHandler "garage" json_Unmarshal_examples get_closed
      ResponseWriter_new World_init = Some (w, s') /\
    upTime_children (registry s') !! k
    = upTime_children (registry World_init) !! k.
Proof.
  intros k. split; [vm_compute; reflexivity|].
  destruct (scrape_leaves_other_series "garage" json_Unmarshal_examples 200
              body_closed status_closed World_init k)
    as (w & s' & Hrun & Hid & _); [vm_compute; reflexivity|].
  exists w, s'. split; [exact Hrun|].
  assert (Hk : k <> identity "garage" status_closed) by discriminate.
  exact (Forall_inv (Hid Hk)).
Defined.

Lemma latest_snapshot_is_read_closed :
  let after := [Err "connection refused"; Err "connection refused"] in
  decoded json_Unmarshal_examples get_closed = Some (200, status_closed) /\
  Forall (other_device json_Unmarshal_examples
            (identity "garage" status_closed) "garage") after /\
  exists ws s',
    serve "garage" json_Unmarshal_examples ([get_opening] ++ get_closed :: after)
      World_init = Some (ws, s') /\
    reads_snapshot "garage" status_closed (registry s').
Proof.
  intros after.
  assert (Hget : decoded json_Unmarshal_examples get_closed
                 = Some (200, status_closed)) by (vm_compute; reflexivity).
  assert (Hafter : Forall (other_device json_Unmarshal_examples
                             (identity "garage" status_closed) "garage") after).
  { constructor; [exact I|]. constructor; [exact I|]. constructor. }
  split; [exact Hget|]. split; [exact Hafter|].
  exact (latest_snapshot_is_read "garage" json_Unmarshal_examples
           [get_opening] after get_closed 200 status_closed World_init
           Hget Hafter).
Defined.

Lemma mutex_released_after_panic :
  let panics : list step := [fun _ => None; fun w => Some w] in
  let order := [T1; T1; T1; T2; T2] in
  let m := {| mutex := false; shared := World_zero;
              thread1 := Done; thread2 := Done |} in
  schedule order (start World_zero panics []) = Some m /\
  (mutex m = true <->
   (exists rest, thread1 m = Running rest) \/
   (exists rest, thread2 m = Running rest)).
Proof.
  intros panics order m.
  assert (Hrun : schedule order (start World_zero panics []) = Some m)
    by reflexivity.
  split; [exact Hrun|].
  exact (proj1 (mutex_held_iff_running World_zero panics [] order m Hrun)).
Defined.

Lemma exposition_can_mix_snapshots_examples :
  decoded json_Unmarshal_examples get_closed = Some (200, status_closed) /\
  decoded json_Unmarshal_examples get_opening = Some (200, status_opening) /\
  identity "garage" status_closed = identity "garage" status_opening /\
  exists order m w R,
    serve_steps order
      (arrive "garage" json_Unmarshal_examples World_init get_closed get_opening)
    = Some m /\
    handler1 m = Served w /\
    wrote w = [Exposition R] /\
    upTime_children R !! ["garage"; "AA"; "Door1"; "10.0.0.5"; "AA:BB"]
      = Some (float64_of_int 125) /\
    garageLightOn_children R !! ["garage"; "AA"; "Door1"; "10.0.0.5"; "AA:BB"]
      = Some f1.
Proof.
  assert (H1 : decoded json_Unmarshal_examples get_closed
               = Some (200, status_closed)) by (vm_compute; reflexivity).
  assert (H2 : decoded json_Unmarshal_examples get_opening
               = Some (200, status_opening)) by (vm_compute; reflexivity).
  assert (H3 : identity "garage" status_closed
               = identity "garage" status_opening) by reflexivity.
  split; [exact H1|]. split; [exact H2|]. split; [exact H3|].
  destruct (exposition_can_mix_snapshots "garage" json_Unmarshal_examples
              get_closed get_opening 200 200 status_closed status_opening
              World_init H1 H2 H3)
    as (order & m & w & R & Hrun & Hserved & _ & Hwrote & Hup & _ & Hlight & _).
  exists order, m, w, R.
  split; [exact Hrun|]. split; [exact Hserved|]. split; [exact Hwrote|].
  split; [exact Hup|exact Hlight].
Defined.
